(** * quic-go: server handshake (CryptoSetup) and packet dispatch (Server)

    A shallow embedding of [handshake/crypto_setup.go] and [server.go].
    Go values are modelled as follows:
    - [[]byte] is [list byte]; a nil slice that the code tells apart from a
      value (the CHLO handed to [Sign], the diversification nonce handed to
      the key derivation, the result of [DiversificationNonce]) is an
      [option]; the value read from a map at a missing key is Go's nil
      slice, of length 0, and is [[]];
    - [map[Tag][]byte] and [map[ConnectionID]packetHandler] are [gmap]s;
    - an interface value held in a field ([crypto.AEAD], [packetHandler])
      is an [option]: [None] is Go's nil;
    - [(T, error)] results are [result T], except where the code stores the
      first component before it looks at the error;
    - writes to the crypto stream, sends on [aeadChanged], requests to the
      signer, UDP writes and calls into sessions are recorded, in program
      order, in an event trace. *)

From Stdlib Require Import ZArith NArith List Bool Lia.
From Stdlib Require Import Strings.Byte.
From stdpp Require Import base option list gmap strings.

Abbreviation bytes := (list byte).

(** ** Errors *)

Inductive ErrorCode :=
| InvalidCryptoMessageType
| CryptoMessageParameterNotFound
| CryptoInvalidValueLength
| PacketTooLarge
| InvalidPacketHeader.

(** [CodeError c] is a bare [qerr.ErrorCode] returned as an error,
    [QuicError c msg] is [qerr.Error(c, msg)], and [ForeignError msg] is an
    error produced outside the code modelled here. *)
Inductive error :=
| CodeError (code : ErrorCode)
| QuicError (code : ErrorCode) (msg : string)
| ForeignError (msg : string).

Inductive result (A : Type) :=
| Ok (a : A)
| Err (e : error).
Arguments Ok {A} a.
Arguments Err {A} e.

Definition is_ok {A} (r : result A) : bool :=
  match r with Ok _ => true | Err _ => false end.

(** ** Package protocol *)

Module protocol.
Abbreviation VersionNumber := Z (only parsing).
Abbreviation ConnectionID := N (only parsing).
Abbreviation PacketNumber := N (only parsing).

(** Modelled from the spec: the constant [protocol.ClientHelloMinimumSize],
    declared outside the files at hand; the spec gives
    CLIENT_HELLO_MIN_SIZE = 1024. *)
Definition ClientHelloMinimumSize : nat := 1024.
End protocol.

(** ** Package crypto: the interfaces the handshake consumes *)

Module crypto.
Record AEAD := {
  Open : protocol.PacketNumber -> bytes -> bytes -> result bytes;
  Seal : protocol.PacketNumber -> bytes -> bytes -> bytes
}.

Record KeyExchange := {
  PublicKey : bytes;
  CalculateSharedKey : bytes -> result bytes
}.

Record Signer := {
  SignServerProof : string -> option bytes -> bytes -> result bytes;
  GetCertsCompressed : string -> bytes -> bytes -> result bytes;
  GetLeafCert : string -> result bytes
}.

Record StkSource := {
  NewToken : bytes -> result bytes;
  VerifyToken : bytes -> bytes -> option error
}.
End crypto.

(** ** Package handshake *)

Abbreviation Tag := N (only parsing).

#[global] Instance byte_eq_dec : EqDecision byte := Byte.byte_eq_dec.

Definition is_nil {A} (o : option A) : bool :=
  match o with None => true | Some _ => false end.

Definition Error_ (e : error) : string :=
  match e with
  | CodeError _ => "quic error"
  | QuicError _ msg => msg
  | ForeignError msg => msg
  end.

Module handshake.

(** Modelled from the spec: the tag constants of [handshake/tags.go]; a tag
    is its four ASCII characters read as a little-endian 32-bit word. *)
Definition mkTag (a b c d : byte) : Tag :=
  (Byte.to_N a + 256 * (Byte.to_N b + 256 * (Byte.to_N c + 256 * Byte.to_N d)))%N.

Definition TagCHLO : Tag := Eval cbv in mkTag "C"%byte "H"%byte "L"%byte "O"%byte.
Definition TagREJ : Tag := Eval cbv in mkTag "R"%byte "E"%byte "J"%byte x00.
Definition TagSHLO : Tag := Eval cbv in mkTag "S"%byte "H"%byte "L"%byte "O"%byte.
Definition TagSNI : Tag := Eval cbv in mkTag "S"%byte "N"%byte "I"%byte x00.
Definition TagSCID : Tag := Eval cbv in mkTag "S"%byte "C"%byte "I"%byte "D"%byte.
Definition TagSTK : Tag := Eval cbv in mkTag "S"%byte "T"%byte "K"%byte x00.
Definition TagCCS : Tag := Eval cbv in mkTag "C"%byte "C"%byte "S"%byte x00.
Definition TagCCRT : Tag := Eval cbv in mkTag "C"%byte "C"%byte "R"%byte "T"%byte.
Definition TagSCFG : Tag := Eval cbv in mkTag "S"%byte "C"%byte "F"%byte "G"%byte.
Definition TagCERT : Tag := Eval cbv in mkTag "C"%byte "E"%byte "R"%byte "T"%byte.
Definition TagPROF : Tag := Eval cbv in mkTag "P"%byte "R"%byte "O"%byte "F"%byte.
Definition TagPUBS : Tag := Eval cbv in mkTag "P"%byte "U"%byte "B"%byte "S"%byte.
Definition TagNONC : Tag := Eval cbv in mkTag "N"%byte "O"%byte "N"%byte "C"%byte.
Definition TagSNO : Tag := Eval cbv in mkTag "S"%byte "N"%byte "O"%byte x00.
Definition TagVER : Tag := Eval cbv in mkTag "V"%byte "E"%byte "R"%byte x00.

(** [m[t]] in Go: the nil slice when [t] is missing. *)
Definition at_tag (m : gmap Tag bytes) (t : Tag) : bytes := default [] (m !! t).

(** The server configuration.  [ID], [kex], [signer] and [stkSource] are
    the fields the handshake reads; [Get] is the cached serialisation. *)
Record ServerConfig := {
  ID : bytes;
  kex : crypto.KeyExchange;
  signer : crypto.Signer;
  stkSource : crypto.StkSource;
  Get : bytes
}.

(** Modelled from the spec: [ServerConfig.Sign], whose body is outside the
    files at hand; it asks the signer for a proof over the CHLO (or nil)
    and the serialised config. *)
Definition Sign (s : ServerConfig) (sni : string) (chlo : option bytes) : result bytes :=
  crypto.SignServerProof (signer s) sni chlo (Get s).

(** Modelled from the spec: [ServerConfig.GetCertsCompressed], whose body is
    outside the files at hand; it delegates to the signer. *)
Definition GetCertsCompressed (s : ServerConfig) (sni : string)
    (commonSetHashes cachedHashes : bytes) : result bytes :=
  crypto.GetCertsCompressed (signer s) sni commonSetHashes cachedHashes.

Definition KeyDerivationFunction : Type :=
  protocol.VersionNumber -> bool -> bytes -> bytes -> protocol.ConnectionID ->
  bytes -> bytes -> bytes -> option bytes -> option crypto.AEAD * option error.

Definition KeyExchangeFunction : Type := result crypto.KeyExchange.

(** What the handshake uses and the files at hand do not define: the
    message codec, the null AEAD, the default key derivation and key
    exchange, the version list and the connection-parameters manager. *)
Class Externals := {
  ParseHandshakeMessage : bytes -> result (Tag * gmap Tag bytes) * nat;
  WriteHandshakeMessage : Tag -> gmap Tag bytes -> bytes;
  NullAEAD : crypto.AEAD;
  DeriveKeysChacha20 : KeyDerivationFunction;
  NewCurve25519KEX : KeyExchangeFunction;
  SupportedVersionsAsTags : bytes;
  ConnectionParametersManager : Type;
  SetFromMap : ConnectionParametersManager -> gmap Tag bytes ->
               ConnectionParametersManager * option error;
  GetSHLOMap : ConnectionParametersManager -> gmap Tag bytes
}.

(** The fields of [CryptoSetup] that hold data.  [cryptoStream],
    [connectionParametersManager] and [aeadChanged] refer to objects shared
    with the session; they live in [World].  The mutex is not modelled:
    calls are taken one at a time. *)
Record CryptoSetup := {
  connID : protocol.ConnectionID;
  ip : bytes;
  version : protocol.VersionNumber;
  scfg : ServerConfig;
  nonce : bytes;
  diversificationNonce : bytes;
  secureAEAD : option crypto.AEAD;
  forwardSecureAEAD : option crypto.AEAD;
  receivedForwardSecurePacket : bool;
  receivedSecurePacket : bool;
  keyDerivation : KeyDerivationFunction;
  keyExchange : KeyExchangeFunction
}.

Definition set_secureAEAD (a : option crypto.AEAD) (h : CryptoSetup) : CryptoSetup :=
  {| connID := connID h; ip := ip h; version := version h; scfg := scfg h;
     nonce := nonce h; diversificationNonce := diversificationNonce h;
     secureAEAD := a; forwardSecureAEAD := forwardSecureAEAD h;
     receivedForwardSecurePacket := receivedForwardSecurePacket h;
     receivedSecurePacket := receivedSecurePacket h;
     keyDerivation := keyDerivation h; keyExchange := keyExchange h |}.

Definition set_forwardSecureAEAD (a : option crypto.AEAD) (h : CryptoSetup) : CryptoSetup :=
  {| connID := connID h; ip := ip h; version := version h; scfg := scfg h;
     nonce := nonce h; diversificationNonce := diversificationNonce h;
     secureAEAD := secureAEAD h; forwardSecureAEAD := a;
     receivedForwardSecurePacket := receivedForwardSecurePacket h;
     receivedSecurePacket := receivedSecurePacket h;
     keyDerivation := keyDerivation h; keyExchange := keyExchange h |}.

Definition set_receivedForwardSecurePacket (b : bool) (h : CryptoSetup) : CryptoSetup :=
  {| connID := connID h; ip := ip h; version := version h; scfg := scfg h;
     nonce := nonce h; diversificationNonce := diversificationNonce h;
     secureAEAD := secureAEAD h; forwardSecureAEAD := forwardSecureAEAD h;
     receivedForwardSecurePacket := b;
     receivedSecurePacket := receivedSecurePacket h;
     keyDerivation := keyDerivation h; keyExchange := keyExchange h |}.

Definition set_receivedSecurePacket (b : bool) (h : CryptoSetup) : CryptoSetup :=
  {| connID := connID h; ip := ip h; version := version h; scfg := scfg h;
     nonce := nonce h; diversificationNonce := diversificationNonce h;
     secureAEAD := secureAEAD h; forwardSecureAEAD := forwardSecureAEAD h;
     receivedForwardSecurePacket := receivedForwardSecurePacket h;
     receivedSecurePacket := b;
     keyDerivation := keyDerivation h; keyExchange := keyExchange h |}.

(** What the handshake does to the objects it shares with the session. *)
Inductive Event :=
| EvStreamWrite (p : bytes)                      (* cryptoStream.Write(p) returned without error *)
| EvAeadChanged                                  (* a send on aeadChanged completed *)
| EvSign (sni : string) (chlo : option bytes).   (* scfg.Sign(sni, chlo) was called *)

Section Handshake.
Context `{ext : !Externals}.

(** The objects a [CryptoSetup] shares with its session: what the peer has
    sent on the crypto stream and was not read yet, whether the stream
    refuses writes, the connection-parameters manager, and the events so
    far (oldest first). *)
Record World := {
  unread : bytes;
  writeError : option error;
  params : ConnectionParametersManager;
  trace : list Event
}.

Definition add_event (e : Event) (w : World) : World :=
  {| unread := unread w; writeError := writeError w; params := params w;
     trace := trace w ++ [e] |}.

Definition set_unread (b : bytes) (w : World) : World :=
  {| unread := b; writeError := writeError w; params := params w;
     trace := trace w |}.

Definition set_writeError (e : option error) (w : World) : World :=
  {| unread := unread w; writeError := e; params := params w;
     trace := trace w |}.

Definition set_params (p : ConnectionParametersManager) (w : World) : World :=
  {| unread := unread w; writeError := writeError w; params := p;
     trace := trace w |}.

(** *** A state-and-error monad: Go code that mutates [h] and the shared
    objects and may return an error.  What was mutated before an error
    stays mutated. *)

Definition St : Type := CryptoSetup * World.
Definition M (A : Type) : Type := St -> result A * St.

Definition ret {A} (a : A) : M A := fun s => (Ok a, s).
Definition fail {A} (e : error) : M A := fun s => (Err e, s).
Definition bind {A B} (m : M A) (k : A -> M B) : M B :=
  fun s => match m s with
           | (Ok a, s') => k a s'
           | (Err e, s') => (Err e, s')
           end.
Definition lift {A} (r : result A) : M A := fun s => (r, s).
Definition check (e : option error) : M unit :=
  match e with Some err => fail err | None => ret tt end.
Definition self : M CryptoSetup := fun s => (Ok (fst s), s).
Definition update (f : CryptoSetup -> CryptoSetup) : M unit :=
  fun s => (Ok tt, (f (fst s), snd s)).
Definition emit (e : Event) : M unit :=
  fun s => (Ok tt, (fst s, add_event e (snd s))).

Notation "x <- c ;; k" := (bind c (fun x => k))
  (at level 100, c at next level, right associativity).
Notation "c ;;; k" := (bind c (fun _ => k))
  (at level 100, right associativity).

(** [h.cryptoStream.Write(p)] *)
Definition cryptoStream_Write (p : bytes) : M unit :=
  fun s => match writeError (snd s) with
           | Some e => (Err e, s)
           | None => (Ok tt, (fst s, add_event (EvStreamWrite p) (snd s)))
           end.

(** [h.connectionParametersManager.SetFromMap(m)] *)
Definition params_SetFromMap (m : gmap Tag bytes) : M unit :=
  fun s => let '(p, e) := SetFromMap (params (snd s)) m in
           check e (fst s, set_params p (snd s)).

(** [h.connectionParametersManager.GetSHLOMap()] *)
Definition params_GetSHLOMap : M (gmap Tag bytes) :=
  fun s => (Ok (GetSHLOMap (params (snd s))), s).

(** *** NewCryptoSetup *)

(** [io.ReadFull(rand.Reader, buf)] with [len(buf) = n], over the bytes
    the entropy source will deliver. *)
Definition ReadFull (n : nat) (rand : bytes) : result bytes * bytes :=
  if length rand <? n then (Err (ForeignError "unexpected EOF"), [])
  else (Ok (take n rand), drop n rand).

Definition NewCryptoSetup (connID : protocol.ConnectionID) (ip : bytes)
    (version : protocol.VersionNumber) (scfg : ServerConfig) (rand : bytes)
    : result CryptoSetup :=
  match ReadFull 32 rand with
  | (Err err, _) => Err err
  | (Ok nonce, rand1) =>
    match ReadFull 32 rand1 with
    | (Err err, _) => Err err
    | (Ok diversificationNonce, _) =>
      Ok {| connID := connID; ip := ip; version := version; scfg := scfg;
            nonce := nonce; diversificationNonce := diversificationNonce;
            secureAEAD := None; forwardSecureAEAD := None;
            receivedForwardSecurePacket := false;
            receivedSecurePacket := false;
            keyDerivation := DeriveKeysChacha20;
            keyExchange := NewCurve25519KEX |}
    end
  end.

(** *** isInchoateCHLO *)

Definition isInchoateCHLO (h : CryptoSetup) (cryptoData : gmap Tag bytes) : bool :=
  match cryptoData !! TagSCID with
  | None => true
  | Some scid =>
    if negb (bool_decide (ID (scfg h) = scid)) then true
    else
      match crypto.VerifyToken (stkSource (scfg h)) (ip h) (at_tag cryptoData TagSTK) with
      | Some err => (* utils.Infof("STK invalid: %s", ...) *) false
      | None => false
      end
  end.

(** *** handleInchoateCHLO *)

Definition handleInchoateCHLO (sni : string) (data : bytes)
    (cryptoData : gmap Tag bytes) : M bytes :=
  h <- self ;;
  if length data <? protocol.ClientHelloMinimumSize then
    fail (QuicError CryptoInvalidValueLength "CHLO too small")
  else
    let chloOrNil := if (30 <? version h)%Z then Some data else None in
    emit (EvSign sni chloOrNil) ;;;
    proof <- lift (Sign (scfg h) sni chloOrNil) ;;
    let commonSetHashes := at_tag cryptoData TagCCS in
    let cachedCertsHashes := at_tag cryptoData TagCCRT in
    certCompressed <- lift (GetCertsCompressed (scfg h) sni commonSetHashes cachedCertsHashes) ;;
    token <- lift (crypto.NewToken (stkSource (scfg h)) (ip h)) ;;
    ret (WriteHandshakeMessage TagREJ
           (<[TagSCFG := Get (scfg h)]>
              (<[TagCERT := certCompressed]>
                 (<[TagPROF := proof]> {[TagSTK := token]})))).

(** *** handleCHLO *)

Definition handleCHLO (sni : string) (data : bytes)
    (cryptoData : gmap Tag bytes) : M bytes :=
  h <- self ;;
  sharedSecret <- lift (crypto.CalculateSharedKey (kex (scfg h)) (at_tag cryptoData TagPUBS)) ;;
  certUncompressed <- lift (crypto.GetLeafCert (signer (scfg h)) sni) ;;
  let '(aead, err) :=
    keyDerivation h (version h) false sharedSecret (at_tag cryptoData TagNONC)
      (connID h) data (Get (scfg h)) certUncompressed
      (Some (diversificationNonce h)) in
  update (set_secureAEAD aead) ;;;
  check err ;;;
  let fsNonce := at_tag cryptoData TagNONC ++ nonce h in
  ephermalKex <- lift (keyExchange h) ;;
  ephermalSharedSecret <- lift (crypto.CalculateSharedKey ephermalKex (at_tag cryptoData TagPUBS)) ;;
  let '(fsAead, fsErr) :=
    keyDerivation h (version h) true ephermalSharedSecret fsNonce
      (connID h) data (Get (scfg h)) certUncompressed None in
  update (set_forwardSecureAEAD fsAead) ;;;
  check fsErr ;;;
  params_SetFromMap cryptoData ;;;
  replyMap <- params_GetSHLOMap ;;
  let replyMap := <[TagPUBS := crypto.PublicKey ephermalKex]> replyMap in
  let replyMap := <[TagSNO := nonce h]> replyMap in
  let replyMap := <[TagVER := SupportedVersionsAsTags]> replyMap in
  let reply := WriteHandshakeMessage TagSHLO replyMap in
  emit EvAeadChanged ;;;
  ret reply.

(** *** handleMessage *)

Definition handleMessage (chloData : bytes) (cryptoData : gmap Tag bytes) : M bool :=
  match cryptoData !! TagSNI with
  | None => fail (QuicError CryptoMessageParameterNotFound "SNI required")
  | Some sniSlice =>
    let sni := String.string_of_list_byte sniSlice in
    if bool_decide (sni = ""%string) then
      fail (QuicError CryptoMessageParameterNotFound "SNI required")
    else
      h <- self ;;
      if negb (isInchoateCHLO h cryptoData) then
        reply <- handleCHLO sni chloData cryptoData ;;
        cryptoStream_Write reply ;;;
        ret true
      else
        reply <- handleInchoateCHLO sni chloData cryptoData ;;
        cryptoStream_Write reply ;;;
        ret false
  end.

(** *** HandleCryptoStream *)

(** [ParseHandshakeMessage(cachingReader)] followed by
    [cachingReader.Get()]: the parser consumes a prefix of the stream, and
    the caching reader hands that prefix back. *)
Definition readMessage : M (Tag * gmap Tag bytes * bytes) :=
  fun s =>
    let '(r, n) := ParseHandshakeMessage (unread (snd s)) in
    let s' := (fst s, set_unread (drop n (unread (snd s))) (snd s)) in
    match r with
    | Err err => (Err err, s')
    | Ok (messageTag, cryptoData) =>
      (Ok (messageTag, cryptoData, take n (unread (snd s))), s')
    end.

Inductive LoopStep :=
| Continue
| Return (err : option error).

(** One turn of the [for] loop. *)
Definition HandleCryptoStream_body (s : St) : LoopStep * St :=
  match readMessage s with
  | (Err err, s1) => (Return (Some err), s1)
  | (Ok (messageTag, cryptoData, chloData), s1) =>
    if negb (bool_decide (messageTag = TagCHLO)) then
      (Return (Some (CodeError InvalidCryptoMessageType)), s1)
    else
      match handleMessage chloData cryptoData s1 with
      | (Err err, s2) => (Return (Some err), s2)
      | (Ok done, s2) => if done then (Return None, s2) else (Continue, s2)
      end
  end.

(** The loop, cut after [fuel] turns: [None] says the loop is still
    running, [Some e] is the returned [error] ([Some None] is Go's nil). *)
Fixpoint HandleCryptoStream (fuel : nat) (s : St) : option (option error) * St :=
  match fuel with
  | O => (None, s)
  | S fuel' =>
    match HandleCryptoStream_body s with
    | (Return err, s') => (Some err, s')
    | (Continue, s') => HandleCryptoStream fuel' s'
    end
  end.

(** *** Open *)

(** Which AEAD produced the value that [Open] returns. *)
Inductive Tier :=
| ForwardSecure
| Secure
| Null.

(** [Open], returning next to Go's [(res, err)] the AEAD that produced it.
    [h.receivedForwardSecurePacket] and [h.receivedSecurePacket] are
    written as the code writes them. *)
Definition OpenVia (h : CryptoSetup) (packetNumber : protocol.PacketNumber)
    (associatedData ciphertext : bytes) : Tier * result bytes * CryptoSetup :=
  let viaNull :=
    (Null, crypto.Open NullAEAD packetNumber associatedData ciphertext, h) in
  let viaSecure :=
    match secureAEAD h with
    | Some aead =>
      match crypto.Open aead packetNumber associatedData ciphertext with
      | Ok res => (Secure, Ok res, set_receivedSecurePacket true h)
      | Err err =>
        if receivedSecurePacket h then (Secure, Err err, h) else viaNull
      end
    | None => viaNull
    end in
  match forwardSecureAEAD h with
  | Some aead =>
    match crypto.Open aead packetNumber associatedData ciphertext with
    | Ok res => (ForwardSecure, Ok res, set_receivedForwardSecurePacket true h)
    | Err err =>
      if receivedForwardSecurePacket h then (ForwardSecure, Err err, h)
      else viaSecure
    end
  | None => viaSecure
  end.

Definition Open (h : CryptoSetup) (packetNumber : protocol.PacketNumber)
    (associatedData ciphertext : bytes) : result bytes * CryptoSetup :=
  let '(_, r, h') := OpenVia h packetNumber associatedData ciphertext in (r, h').

(** A sequence of [Open] calls, each on the state the previous one left. *)
Fixpoint OpenAll (h : CryptoSetup)
    (calls : list (protocol.PacketNumber * bytes * bytes))
    : list (Tier * result bytes) * CryptoSetup :=
  match calls with
  | [] => ([], h)
  | (pn, ad, ct) :: rest =>
    let '(t, r, h1) := OpenVia h pn ad ct in
    let '(outs, h2) := OpenAll h1 rest in
    ((t, r) :: outs, h2)
  end.

(** The forward-secure latch: the flag is set and the AEAD is there; and
    the same for the secure AEAD. *)
Definition fs_latched (h : CryptoSetup) : Prop :=
  is_Some (forwardSecureAEAD h) /\ receivedForwardSecurePacket h = true.

Definition secure_latched (h : CryptoSetup) : Prop :=
  is_Some (secureAEAD h) /\ receivedSecurePacket h = true.

(** *** Seal *)

(** [None] is the nil dereference of [h.forwardSecureAEAD.Seal] when no
    forward-secure AEAD is installed. *)
Definition Seal (h : CryptoSetup) (packetNumber : protocol.PacketNumber)
    (associatedData plaintext : bytes) : option bytes :=
  if receivedForwardSecurePacket h then
    match forwardSecureAEAD h with
    | Some aead => Some (crypto.Seal aead packetNumber associatedData plaintext)
    | None => None
    end
  else
    match secureAEAD h with
    | Some aead => Some (crypto.Seal aead packetNumber associatedData plaintext)
    | None => Some (crypto.Seal NullAEAD packetNumber associatedData plaintext)
    end.

(** *** DiversificationNonce *)

Definition DiversificationNonce (h : CryptoSetup) : option bytes :=
  if (version h <? 33)%Z then None
  else if receivedForwardSecurePacket h || is_nil (secureAEAD h) then None
  else Some (diversificationNonce h).

(** *** The life of a CryptoSetup

    A session makes its [CryptoSetup] with [NewCryptoSetup], runs
    [HandleCryptoStream] once, and calls [Open], [Seal] and
    [DiversificationNonce] at any time.  [handleCHLO] holds the write lock
    while it touches [h], and [Open] the read lock, so a turn of the
    handshake loop and a call of [Open] do not overlap on [h].  [Seal] and
    [DiversificationNonce] leave the state as it is. *)

(** The state after [k] turns of the loop that all went on to the next
    turn, if the first [k] turns do. *)
Fixpoint turns (k : nat) (s : St) : option St :=
  match k with
  | O => Some s
  | S k' =>
    match HandleCryptoStream_body s with
    | (Continue, s') => turns k' s'
    | (Return _, _) => None
    end
  end.

(** The order of events as the spec words it: whenever the signal on
    [aeadChanged] fires, a message was written to the crypto stream
    before.  [written] says whether a write was seen so far. *)
Fixpoint signal_follows_write (written : bool) (t : list Event) : bool :=
  match t with
  | [] => true
  | EvStreamWrite _ :: t' => signal_follows_write true t'
  | EvAeadChanged :: t' => written && signal_follows_write written t'
  | EvSign _ _ :: t' => signal_follows_write written t'
  end.

Inductive Phase :=
| Handshaking
| Finished.

Definition phase_after (r : LoopStep) : Phase :=
  match r with Continue => Handshaking | Return _ => Finished end.

Inductive step : Phase * St -> Phase * St -> Prop :=
| step_peer_sends ph h w p :
    step (ph, (h, w)) (ph, (h, set_unread (unread w ++ p) w))
| step_stream_breaks ph h w e :
    step (ph, (h, w)) (ph, (h, set_writeError (Some e) w))
| step_handshake s :
    step (Handshaking, s)
         (phase_after (fst (HandleCryptoStream_body s)),
          snd (HandleCryptoStream_body s))
| step_Open ph h w pn ad ct :
    step (ph, (h, w)) (ph, (snd (Open h pn ad ct), w)).

Definition initial (s : St) : Prop :=
  (exists connID ip version scfg rand,
     NewCryptoSetup connID ip version scfg rand = Ok (fst s))
  /\ trace (snd s) = [].

Definition reachable (s : St) : Prop :=
  exists ph s0, initial s0 /\ rtc step (Handshaking, s0) (ph, s).

(** What holds of every reachable state, by phase: while the handshake
    loop runs no forward-secure AEAD is installed and the flag is unset;
    the flag is never set without the AEAD; the diversification nonce
    keeps its 32 bytes. *)
Definition lifecycle_invariant (ps : Phase * St) : Prop :=
  let h := ps.2.1 in
  (ps.1 = Handshaking ->
   forwardSecureAEAD h = None /\ receivedForwardSecurePacket h = false) /\
  (receivedForwardSecurePacket h = true -> is_Some (forwardSecureAEAD h)) /\
  length (diversificationNonce h) = 32.

(** *** verifyOrCreateSTK *)


(** *** Vocabulary for the properties below *)

(** Whether an AEAD slot holds an AEAD that opens the packet. *)
Definition opens (slot : option crypto.AEAD) (pn : protocol.PacketNumber)
    (ad ct : bytes) : bool :=
  match slot with
  | Some aead => is_ok (crypto.Open aead pn ad ct)
  | None => false
  end.

(** The number of sends on [aeadChanged] in a trace. *)
Fixpoint signals (t : list Event) : nat :=
  match t with
  | [] => 0
  | EvAeadChanged :: t' => S (signals t')
  | _ :: t' => signals t'
  end.

(** The fields that are set by [NewCryptoSetup] and that no method
    assigns. *)
Definition same_setup (h h' : CryptoSetup) : Prop :=
  connID h' = connID h /\ ip h' = ip h /\ version h' = version h /\
  scfg h' = scfg h /\ nonce h' = nonce h /\
  diversificationNonce h' = diversificationNonce h /\
  keyDerivation h' = keyDerivation h /\ keyExchange h' = keyExchange h.

End Handshake.

Notation "x <- c ;; k" := (bind c (fun x => k))
  (at level 100, c at next level, right associativity).
Notation "c ;;; k" := (bind c (fun _ => k))
  (at level 100, right associativity).

End handshake.

(** ** Package quic: the server's packet dispatch *)

Module quic.

Abbreviation UDPAddr := bytes (only parsing).

(** A [packetHandler] is known by the identity of the session object. *)
Abbreviation packetHandler := nat (only parsing).

(** The fields of [publicHeader] that [server.go] reads or writes. *)
Record publicHeader := {
  Raw : bytes;
  VersionFlag : bool;
  VersionNumber : protocol.VersionNumber;
  ConnectionID : protocol.ConnectionID;
  PacketNumber : protocol.PacketNumber
}.

Definition set_Raw (raw : bytes) (hdr : publicHeader) : publicHeader :=
  {| Raw := raw; VersionFlag := VersionFlag hdr;
     VersionNumber := VersionNumber hdr; ConnectionID := ConnectionID hdr;
     PacketNumber := PacketNumber hdr |}.

(** What [server.go] uses and the files at hand do not define.
    [parsePublicHeader] returns the header and [r.Len()], the number of
    bytes it left unread; [WritePublicHeader] returns what it wrote. *)
Class Externals := {
  MaxPacketSize : nat;
  parsePublicHeader : bytes -> result (publicHeader * nat);
  WritePublicHeader : publicHeader -> bytes * option error;
  IsSupportedVersion : protocol.VersionNumber -> bool;
  SupportedVersionsAsTags : bytes
}.

(** The fields of [Server] that packet dispatch uses.  A connection ID
    mapped to [None] is an entry whose value is nil.  [newSession] returns
    the new session object or an error. *)
Record Server := {
  sessions : gmap protocol.ConnectionID (option packetHandler);
  newSession : UDPAddr -> protocol.VersionNumber -> protocol.ConnectionID ->
               result packetHandler
}.

Definition set_sessions (m : gmap protocol.ConnectionID (option packetHandler))
    (s : Server) : Server :=
  {| sessions := m; newSession := newSession s |}.

Inductive Event :=
| EvWriteToUDP (p : bytes) (addr : UDPAddr)       (* conn.WriteToUDP(p, addr) returned without error *)
| EvNewSession (v : protocol.VersionNumber) (id : protocol.ConnectionID)
                                                  (* s.newSession(...) was called *)
| EvRun (session : packetHandler)                 (* go session.run() *)
| EvHandlePacket (session : packetHandler) (addr : UDPAddr)
                 (hdr : publicHeader) (data : bytes). (* session.handlePacket(addr, hdr, data) *)

(** The UDP socket: whether it refuses writes, and the events so far
    (oldest first). *)
Record World := {
  udpError : option error;
  trace : list Event
}.

Definition add_event (e : Event) (w : World) : World :=
  {| udpError := udpError w; trace := trace w ++ [e] |}.

Section Server.
Context `{ext : !Externals}.

(** [conn.WriteToUDP(p, addr)] *)
Definition WriteToUDP (p : bytes) (addr : UDPAddr) (w : World) : option error * World :=
  match udpError w with
  | Some err => (Some err, w)
  | None => (None, add_event (EvWriteToUDP p addr) w)
  end.

Definition composeVersionNegotiation (connectionID : protocol.ConnectionID) : bytes :=
  let responsePublicHeader :=
    {| Raw := []; VersionFlag := true; VersionNumber := 0%Z;
       ConnectionID := connectionID; PacketNumber := 1%N |} in
  let '(fullReply, err) := WritePublicHeader responsePublicHeader in
  (* an error is logged and otherwise ignored *)
  fullReply ++ SupportedVersionsAsTags.

Definition handlePacket (s : Server) (w : World) (remoteAddr : UDPAddr)
    (packet : bytes) : option error * Server * World :=
  if MaxPacketSize <? length packet then (Some (CodeError PacketTooLarge), s, w)
  else
    match parsePublicHeader packet with
    | Err err => (Some (QuicError InvalidPacketHeader (Error_ err)), s, w)
    | Ok (hdr, rLen) =>
      let hdr := set_Raw (take (length packet - rLen) packet) hdr in
      if VersionFlag hdr && negb (IsSupportedVersion (VersionNumber hdr)) then
        let '(err, w1) :=
          WriteToUDP (composeVersionNegotiation (ConnectionID hdr)) remoteAddr w in
        match err with
        | Some err => (Some err, s, w1)
        | None => (None, s, w1)
        end
      else
        let deliver (session : option packetHandler) (s1 : Server) (w1 : World) :=
          match session with
          | None => (* Late packet for closed session *) (None, s1, w1)
          | Some session =>
            (None, s1,
             add_event (EvHandlePacket session remoteAddr hdr
                          (drop (length packet - rLen) packet)) w1)
          end in
        match sessions s !! ConnectionID hdr with
        | Some session => deliver session s w
        | None =>
          let w1 := add_event (EvNewSession (VersionNumber hdr) (ConnectionID hdr)) w in
          match newSession s remoteAddr (VersionNumber hdr) (ConnectionID hdr) with
          | Err err => (Some err, s, w1)
          | Ok session =>
            let w2 := add_event (EvRun session) w1 in
            let s1 := set_sessions (<[ConnectionID hdr := Some session]> (sessions s)) s in
            deliver (Some session) s1 w2
          end
        end
    end.

Definition closeCallback (id : protocol.ConnectionID) (s : Server) : Server :=
  set_sessions (<[id := None]> (sessions s)) s.

(** What happens to a server after a session closed: packets arrive and
    sessions close, in any order. *)
Inductive Op :=
| Packet (remoteAddr : UDPAddr) (packet : bytes)
| Close (id : protocol.ConnectionID).

Definition run_op (o : Op) (sw : Server * World) : Server * World :=
  match o with
  | Packet remoteAddr packet =>
    let '(_, s', w') := handlePacket (fst sw) (snd sw) remoteAddr packet in (s', w')
  | Close id => (closeCallback id (fst sw), snd sw)
  end.

Definition run_ops (ops : list Op) (sw : Server * World) : Server * World :=
  fold_left (fun acc o => run_op o acc) ops sw.

(** An event that creates a session for [id], or hands a packet of
    connection [id] to a session. *)
Definition concerns (id : protocol.ConnectionID) (e : Event) : bool :=
  match e with
  | EvNewSession _ id' => bool_decide (id' = id)
  | EvHandlePacket _ _ hdr _ => bool_decide (ConnectionID hdr = id)
  | _ => false
  end.

(** *** Server.Close

    The listening side of a [Server]: for each socket of [s.conns], in
    order, what its [Close] answers, and whether the channel
    [packetsToSend] is closed. *)
Record Listeners := {
  conns : list (option error);
  packetsToSendClosed : bool
}.

(** The [for] loop of [Server.Close]: the number of sockets on which
    [Close] was called, and the returned error. *)
Fixpoint closeConns (cs : list (option error)) : nat * option error :=
  match cs with
  | [] => (0, None)
  | Some err :: _ => (1, Some err)
  | None :: rest => let '(n, err) := closeConns rest in (S n, err)
  end.

(** [None] is the panic of closing a closed channel. *)
Definition Server_Close (l : Listeners) : option (nat * option error) * Listeners :=
  if packetsToSendClosed l then (None, l)
  else (Some (closeConns (conns l)),
        {| conns := conns l; packetsToSendClosed := true |}).

(** An event that starts a session or hands it a packet. *)
Definition reaches_session (e : Event) : bool :=
  match e with
  | EvRun _ | EvHandlePacket _ _ _ _ => true
  | _ => false
  end.

End Server.

End quic.

(** ** A small concrete environment, to run the definitions *)

Module demo.
Import handshake.

(** An AEAD that prefixes the plaintext with one key byte. *)
Definition keyed (k : byte) : crypto.AEAD :=
  {| crypto.Seal := fun _ _ plaintext => k :: plaintext;
     crypto.Open := fun _ _ ciphertext =>
       match ciphertext with
       | k' :: plaintext =>
         if bool_decide (k' = k) then Ok plaintext
         else Err (ForeignError "decryption failed")
       | [] => Err (ForeignError "decryption failed")
       end |}.

Definition kdf : handshake.KeyDerivationFunction :=
  fun _ forwardSecure _ _ _ _ _ _ _ =>
    (Some (keyed (if forwardSecure then x02 else x01)), None).

Definition kx : crypto.KeyExchange :=
  {| crypto.PublicKey := [x09];
     crypto.CalculateSharedKey := fun peer => Ok peer |}.

Definition sgn : crypto.Signer :=
  {| crypto.SignServerProof := fun _ chlo _ =>
       Ok (match chlo with Some _ => [x01] | None => [x00] end);
     crypto.GetCertsCompressed := fun _ _ _ => Ok [x0c];
     crypto.GetLeafCert := fun _ => Ok [x0d] |}.

Definition stk : crypto.StkSource :=
  {| crypto.NewToken := fun ip => Ok (x2a :: ip);
     crypto.VerifyToken := fun ip token =>
       if bool_decide (token = x2a :: ip) then None
       else Some (ForeignError "STK invalid") |}.

Definition config : ServerConfig :=
  {| ID := [x53]; kex := kx; signer := sgn; stkSource := stk; Get := [x5c] |}.

Definition peer : bytes := [x7f; x00; x00; x01].

Definition sni : bytes := ["a"; "."; "i"; "o"]%byte.

(** A CHLO without a server config ID. *)
Definition chlo_inchoate : gmap Tag bytes := {[TagSNI := sni]}.

(** A CHLO with the server config ID and no source-address token. *)
Definition chlo_no_stk : gmap Tag bytes :=
  <[TagSNI := sni]> (<[TagSCID := [x53]]> (<[TagPUBS := [x07]]> {[TagNONC := [x08]]})).

(** A CHLO with the server config ID and a token that verifies. *)
Definition chlo_full : gmap Tag bytes := <[TagSTK := x2a :: peer]> chlo_no_stk.

(** A codec for the messages above: the first byte of the stream picks
    the message, the writer emits the low byte of the tag and the values. *)
Definition parse (input : bytes) : result (Tag * gmap Tag bytes) * nat :=
  match input with
  | x01 :: _ => (Ok (TagCHLO, chlo_full), 1)
  | x02 :: _ => (Ok (TagCHLO, chlo_inchoate), 1024)
  | x03 :: _ => (Ok (TagREJ, ∅), 1)
  | x04 :: _ => (Ok (TagCHLO, chlo_no_stk), 1)
  | _ => (Err (ForeignError "EOF"), 0)
  end.

Definition write (tag : Tag) (m : gmap Tag bytes) : bytes :=
  default x00 (Byte.of_N (tag mod 256)) :: concat (map snd (map_to_list m)).

#[export] Instance handshake_env : handshake.Externals :=
  {| handshake.ParseHandshakeMessage := parse;
     handshake.WriteHandshakeMessage := write;
     handshake.NullAEAD := keyed x00;
     handshake.DeriveKeysChacha20 := kdf;
     handshake.NewCurve25519KEX := Ok kx;
     handshake.SupportedVersionsAsTags := ["Q"; "0"; "3"; "4"]%byte;
     handshake.ConnectionParametersManager := gmap Tag bytes;
     handshake.SetFromMap := fun _ m => (m, None);
     handshake.GetSHLOMap := fun _ => ∅ |}.

Definition world (input : bytes) : handshake.World :=
  {| handshake.unread := input; handshake.writeError := None;
     handshake.params := ∅; handshake.trace := [] |}.

(** A fresh CryptoSetup at version [v]. *)
Definition fresh (v : protocol.VersionNumber) : CryptoSetup :=
  match handshake.NewCryptoSetup 5%N peer v config (repeat x11 64) with
  | Ok h => h
  | Err _ =>
    {| connID := 5; ip := peer; version := v; scfg := config; nonce := [];
       diversificationNonce := []; secureAEAD := None;
       forwardSecureAEAD := None; receivedForwardSecurePacket := false;
       receivedSecurePacket := false; keyDerivation := kdf;
       keyExchange := Ok kx |}
  end.

(** The CryptoSetup after a full CHLO was handled at version 34. *)
Definition established : CryptoSetup :=
  (handleMessage [x01] chlo_full (fresh 34, world [])).2.1.

(** A CryptoSetup whose key exchange cannot be made. *)
Definition without_entropy : CryptoSetup :=
  {| connID := 5; ip := peer; version := 34; scfg := config;
     nonce := repeat x11 32; diversificationNonce := repeat x11 32;
     secureAEAD := None; forwardSecureAEAD := None;
     receivedForwardSecurePacket := false; receivedSecurePacket := false;
     keyDerivation := kdf; keyExchange := Err (ForeignError "no entropy") |}.

(** A crypto stream that refuses writes. *)
Definition broken_world : handshake.World :=
  {| handshake.unread := []; handshake.writeError := Some (ForeignError "stream closed");
     handshake.params := ∅; handshake.trace := [] |}.

(** Three sockets, the second of which fails to close. *)
Definition listeners : quic.Listeners :=
  {| quic.conns := [None; Some (ForeignError "already closed"); None];
     quic.packetsToSendClosed := false |}.

(** A public-header codec: a flags byte whose lowest bit is the version
    flag, one byte of connection ID, one byte of version when the flag is
    set, one byte of packet number. *)
Definition parseHeader (p : bytes) : result (quic.publicHeader * nat) :=
  match p with
  | flags :: c :: rest =>
    if N.testbit (Byte.to_N flags) 0 then
      match rest with
      | v :: n :: payload =>
        Ok ({| quic.Raw := []; quic.VersionFlag := true;
               quic.VersionNumber := Z.of_N (Byte.to_N v);
               quic.ConnectionID := Byte.to_N c;
               quic.PacketNumber := Byte.to_N n |}, length payload)
      | _ => Err (ForeignError "EOF")
      end
    else
      match rest with
      | n :: payload =>
        Ok ({| quic.Raw := []; quic.VersionFlag := false;
               quic.VersionNumber := 0;
               quic.ConnectionID := Byte.to_N c;
               quic.PacketNumber := Byte.to_N n |}, length payload)
      | _ => Err (ForeignError "EOF")
      end
  | _ => Err (ForeignError "EOF")
  end.

#[export] Instance quic_env : quic.Externals :=
  {| quic.MaxPacketSize := 1452;
     quic.parsePublicHeader := parseHeader;
     quic.WritePublicHeader := fun hdr =>
       ([x09; default x00 (Byte.of_N (quic.ConnectionID hdr mod 256))], None);
     quic.IsSupportedVersion := fun v => bool_decide (v = 34%Z);
     quic.SupportedVersionsAsTags := ["Q"; "0"; "3"; "4"]%byte |}.

(** A server with one open session, 1, for connection 7. *)
Definition server : quic.Server :=
  {| quic.sessions := {[7%N := Some 1]};
     quic.newSession := fun _ _ id => Ok (N.to_nat id + 100) |}.

Definition net (broken : option error) : quic.World :=
  {| quic.udpError := broken; quic.trace := [] |}.

End demo.

(** * Properties of the handshake *)

Import handshake.

Section HandshakeProperties.
Context `{ext : !Externals}.

(** ** Open and the key tiers *)

Lemma Open_OpenVia h pn ad ct :
  Open h pn ad ct = ((OpenVia h pn ad ct).1.2, (OpenVia h pn ad ct).2).
Proof. unfold Open. by destruct (OpenVia h pn ad ct) as [[t r] h']. Qed.

(** [Open] writes the two flags and nothing else. *)
Lemma OpenVia_AEADs h pn ad ct :
  forwardSecureAEAD (OpenVia h pn ad ct).2 = forwardSecureAEAD h /\
  secureAEAD (OpenVia h pn ad ct).2 = secureAEAD h /\
  diversificationNonce (OpenVia h pn ad ct).2 = diversificationNonce h.
Proof. unfold OpenVia. repeat case_match; simpl; done. Qed.

(** A success under the forward-secure AEAD sets the flag, and needs the
    AEAD. *)
Lemma OpenVia_ForwardSecure_success h pn ad ct res h' :
  OpenVia h pn ad ct = (ForwardSecure, Ok res, h') ->
  is_Some (forwardSecureAEAD h') /\ receivedForwardSecurePacket h' = true.
Proof.
  unfold OpenVia. intros Hopen.
  repeat case_match; simplify_eq; simpl; eauto.
Qed.

Lemma OpenVia_Secure_success h pn ad ct res h' :
  OpenVia h pn ad ct = (Secure, Ok res, h') ->
  is_Some (secureAEAD h') /\ receivedSecurePacket h' = true.
Proof.
  unfold OpenVia. intros Hopen.
  repeat case_match; simplify_eq; simpl; eauto.
Qed.

Lemma fs_latched_OpenVia h pn ad ct :
  fs_latched h ->
  (OpenVia h pn ad ct).1.1 = ForwardSecure /\ fs_latched (OpenVia h pn ad ct).2.
Proof.
  intros [[a Ha] Hflag]. unfold OpenVia, fs_latched. rewrite Ha, Hflag.
  destruct (crypto.Open a pn ad ct); simpl; rewrite ?Ha; eauto.
Qed.

Lemma secure_latched_OpenVia h pn ad ct :
  secure_latched h ->
  (OpenVia h pn ad ct).1.1 <> Null /\ secure_latched (OpenVia h pn ad ct).2.
Proof.
  intros [[a Ha] Hflag]. unfold OpenVia, secure_latched. rewrite Ha, Hflag.
  repeat case_match; simpl; rewrite ?Ha; eauto.
Qed.

Lemma fs_latched_OpenAll calls h j t r :
  fs_latched h -> (OpenAll h calls).1 !! j = Some (t, r) -> t = ForwardSecure.
Proof.
  revert h j. induction calls as [|[[pn ad] ct] rest IH]; intros h j Hl; simpl.
  - by rewrite lookup_nil.
  - destruct (fs_latched_OpenVia h pn ad ct Hl) as [Ht Hl'].
    destruct (OpenVia h pn ad ct) as [[t0 r0] h1]; simpl in *.
    specialize (IH h1). destruct (OpenAll h1 rest) as [outs h2]; simpl in *.
    destruct j as [|j]; simpl; [congruence | eauto].
Qed.

Lemma secure_latched_OpenAll calls h j t r :
  secure_latched h -> (OpenAll h calls).1 !! j = Some (t, r) -> t <> Null.
Proof.
  revert h j. induction calls as [|[[pn ad] ct] rest IH]; intros h j Hl; simpl.
  - by rewrite lookup_nil.
  - destruct (secure_latched_OpenVia h pn ad ct Hl) as [Ht Hl'].
    destruct (OpenVia h pn ad ct) as [[t0 r0] h1]; simpl in *.
    specialize (IH h1). destruct (OpenAll h1 rest) as [outs h2]; simpl in *.
    destruct j as [|j]; simpl; [congruence | eauto].
Qed.

(** C3. In a sequence of [Open] calls, a successful decryption under the
    forward-secure AEAD is never followed by a successful decryption
    under the secure or the null AEAD, and a successful decryption under
    the secure AEAD is never followed by one under the null AEAD. *)
Theorem C3_monotonic_key_tier h calls i j ti ri tj rj :
  (i < j)%nat ->
  (OpenAll h calls).1 !! i = Some (ti, Ok ri) ->
  (OpenAll h calls).1 !! j = Some (tj, Ok rj) ->
  (ti = ForwardSecure -> tj = ForwardSecure) /\
  (ti = Secure -> tj <> Null).
Proof.
  revert h i j.
  induction calls as [|[[pn ad] ct] rest IH]; intros h i j Hij; simpl.
  - by rewrite lookup_nil.
  - destruct (OpenVia h pn ad ct) as [[t0 r0] h1] eqn:Hopen.
    specialize (IH h1).
    pose proof (fs_latched_OpenAll rest h1) as Hfs.
    pose proof (secure_latched_OpenAll rest h1) as Hsec.
    destruct (OpenAll h1 rest) as [outs h2]; simpl in *.
    destruct j as [|j]; [lia|]. destruct i as [|i]; simpl.
    + intros [= -> ->] Hj. split; intros ->.
      * eapply Hfs; [|exact Hj].
        by apply OpenVia_ForwardSecure_success in Hopen.
      * eapply Hsec; [|exact Hj].
        by apply OpenVia_Secure_success in Hopen.
    + apply IH. lia.
Qed.

(** ** Seal *)

(** C4. [Seal] uses the forward-secure AEAD when
    [receivedForwardSecurePacket] is set, otherwise the secure AEAD when
    one is installed, otherwise the null AEAD. *)
Theorem C4_Seal_selects_AEAD h pn ad pt :
  (receivedForwardSecurePacket h = true ->
   Seal h pn ad pt = (fun aead => crypto.Seal aead pn ad pt) <$> forwardSecureAEAD h) /\
  (receivedForwardSecurePacket h = false ->
   forall aead, secureAEAD h = Some aead ->
   Seal h pn ad pt = Some (crypto.Seal aead pn ad pt)) /\
  (receivedForwardSecurePacket h = false -> secureAEAD h = None ->
   Seal h pn ad pt = Some (crypto.Seal NullAEAD pn ad pt)).
Proof.
  unfold Seal. repeat split.
  - intros ->. by destruct (forwardSecureAEAD h).
  - by intros -> aead ->.
  - by intros -> ->.
Qed.

(** ** DiversificationNonce and the life of a CryptoSetup *)

Ltac run_monad :=
  unfold handleMessage, handleCHLO, handleInchoateCHLO, params_SetFromMap,
    params_GetSHLOMap, cryptoStream_Write, bind, ret, fail, lift, check,
    self, update, emit in *;
  simpl in *.

Ltac run_cases :=
  repeat first [ progress run_monad | case_match; simplify_eq ].

(** Handling an inchoate CHLO leaves the CryptoSetup as it is. *)
Lemma handleInchoateCHLO_self sni data cryptoData h w :
  (handleInchoateCHLO sni data cryptoData (h, w)).2.1 = h.
Proof. run_cases; done. Qed.

(** Handling a CHLO writes the two AEAD fields and nothing else. *)
Lemma handleCHLO_frame sni data cryptoData h w :
  let h' := (handleCHLO sni data cryptoData (h, w)).2.1 in
  receivedForwardSecurePacket h' = receivedForwardSecurePacket h /\
  diversificationNonce h' = diversificationNonce h.
Proof. run_cases; done. Qed.

Lemma handleMessage_frame chloData cryptoData h w :
  let h' := (handleMessage chloData cryptoData (h, w)).2.1 in
  receivedForwardSecurePacket h' = receivedForwardSecurePacket h /\
  diversificationNonce h' = diversificationNonce h.
Proof.
  pose proof (handleInchoateCHLO_self) as Hi.
  pose proof (handleCHLO_frame) as Hc.
  unfold handleMessage, cryptoStream_Write, bind, ret, fail, self. simpl.
  repeat case_match; simplify_eq; simpl; try done.
  all: match goal with
       | H : handleCHLO ?a ?b ?c (?h0, ?w0) = _ |- _ =>
         specialize (Hc a b c h0 w0); rewrite H in Hc; exact Hc
       | H : handleInchoateCHLO ?a ?b ?c (?h0, ?w0) = _ |- _ =>
         specialize (Hi a b c h0 w0); rewrite H in Hi; simpl in Hi; by subst
       end.
Qed.

(** A CHLO after which the loop goes on was an inchoate one: the
    CryptoSetup is as before. *)
Lemma handleMessage_not_done chloData cryptoData h w s' :
  handleMessage chloData cryptoData (h, w) = (Ok false, s') -> s'.1 = h.
Proof.
  pose proof (handleInchoateCHLO_self) as Hi.
  unfold handleMessage, cryptoStream_Write, bind, ret, fail, self. simpl.
  intros Hm. repeat case_match; simplify_eq; simpl.
  match goal with
  | H : handleInchoateCHLO ?a ?b ?c (?h0, ?w0) = _ |- _ =>
    specialize (Hi a b c h0 w0); by rewrite H in Hi
  end.
Qed.

Lemma NewCryptoSetup_fresh connID ip version scfg rand h :
  NewCryptoSetup connID ip version scfg rand = Ok h ->
  forwardSecureAEAD h = None /\ secureAEAD h = None /\
  receivedForwardSecurePacket h = false /\
  length (diversificationNonce h) = 32.
Proof.
  unfold NewCryptoSetup, ReadFull. intros Hnew.
  repeat case_match; simplify_eq; simpl.
  repeat split; try done.
  match goal with
  | H : (length ?l <? 32) = false |- _ => apply Nat.ltb_ge in H
  end.
  rewrite length_take. lia.
Qed.

Lemma lifecycle_invariant_step ps ps' :
  step ps ps' -> lifecycle_invariant ps -> lifecycle_invariant ps'.
Proof.
  unfold lifecycle_invariant.
  intros Hstep (Hrun & Hflag & Hlen). destruct Hstep; simpl in *.
  - done.
  - done.
  - destruct s as [h w]. simpl in *. destruct (Hrun eq_refl) as [Hfs Hno].
    unfold HandleCryptoStream_body, readMessage. simpl.
    destruct (ParseHandshakeMessage (unread w)) as [[[tag cryptoData]|err] n];
      simpl; [|by rewrite Hfs, Hno].
    case_match; simpl; [by rewrite Hfs, Hno|].
    match goal with
    | |- context [handleMessage ?d ?c (h, ?w0)] =>
      pose proof (handleMessage_frame d c h w0) as Hframe;
      pose proof (handleMessage_not_done d c h w0) as Hsame;
      destruct (handleMessage d c (h, w0)) as [[finished|err] [h' w']]
    end; simpl in *; destruct Hframe as [Hf Hd].
    + destruct finished; simpl.
      * rewrite Hf, Hd, Hno. done.
      * specialize (Hsame _ eq_refl). simpl in Hsame. by subst h'.
    + rewrite Hf, Hd, Hno. done.
  - rewrite Open_OpenVia. simpl.
    destruct (OpenVia_AEADs h pn ad ct) as (Hfs & _ & Hdiv).
    rewrite Hfs, Hdiv. split; [|split; [|done]].
    + intros Hph. destruct (Hrun Hph) as [Hnone Hno]. split; [done|].
      unfold OpenVia. rewrite Hnone. repeat case_match; done.
    + intros Hset.
      destruct (receivedForwardSecurePacket h) eqn:Hold; [by apply Hflag|].
      revert Hset. unfold OpenVia.
      destruct (forwardSecureAEAD h); [by eauto|].
      repeat case_match; simpl; congruence.
Qed.

Lemma lifecycle_invariant_steps ps ps' :
  rtc step ps ps' -> lifecycle_invariant ps -> lifecycle_invariant ps'.
Proof.
  induction 1 as [|ps1 ps2 ps3 Hstep _ IH]; [done|].
  intros Hinv. apply IH. by eapply lifecycle_invariant_step.
Qed.

Lemma reachable_invariant s :
  reachable s -> exists ph, lifecycle_invariant (ph, s).
Proof.
  intros (ph & s0 & [(connID & ip & version & scfg & rand & Hnew) _] & Hrun).
  exists ph.
  apply NewCryptoSetup_fresh in Hnew as (Hfs & _ & Hno & Hlen).
  eapply lifecycle_invariant_steps; [exact Hrun|].
  unfold lifecycle_invariant. simpl. rewrite Hno. by repeat split.
Qed.

(** C5. [DiversificationNonce] returns the diversification nonce, of 32
    bytes, exactly when the version is at least 33, a secure AEAD is
    installed and [receivedForwardSecurePacket] is unset; in every other
    state it returns nil. *)
Theorem C5_DiversificationNonce h :
  (DiversificationNonce h = Some (diversificationNonce h) <->
   (33 <= version h)%Z /\ is_Some (secureAEAD h) /\
   receivedForwardSecurePacket h = false) /\
  (~ ((33 <= version h)%Z /\ is_Some (secureAEAD h) /\
      receivedForwardSecurePacket h = false) ->
   DiversificationNonce h = None) /\
  (forall w, reachable (h, w) -> length (diversificationNonce h) = 32).
Proof.
  unfold DiversificationNonce. repeat split.
  - destruct (Z.ltb_spec (version h) 33); [done | lia].
  - destruct (version h <? 33)%Z; [done|].
    destruct (receivedForwardSecurePacket h); [done|].
    destruct (secureAEAD h); [by eauto | done].
  - destruct (version h <? 33)%Z; [done|].
    by destruct (receivedForwardSecurePacket h).
  - intros (Hv & [a Ha] & Hflag).
    destruct (Z.ltb_spec (version h) 33); [lia|].
    by rewrite Hflag, Ha.
  - intros Hnot.
    destruct (Z.ltb_spec (version h) 33); [done|].
    destruct (receivedForwardSecurePacket h) eqn:Hflag; [done|].
    destruct (secureAEAD h) eqn:Ha; [|done].
    exfalso. apply Hnot. eauto.
  - intros w [ph (_ & _ & Hlen)]%reachable_invariant. exact Hlen.
Qed.

(** C9. In every reachable state, [receivedForwardSecurePacket] set
    means that a forward-secure AEAD is installed, and [Seal] returns
    without a nil dereference. *)
Theorem C9_forward_secure_flag_needs_AEAD s :
  reachable s ->
  (receivedForwardSecurePacket s.1 = true -> is_Some (forwardSecureAEAD s.1)) /\
  (forall pn ad pt, is_Some (Seal s.1 pn ad pt)).
Proof.
  intros [ph (_ & Hflag & _)]%reachable_invariant. simpl in Hflag.
  split; [done|]. intros pn ad pt. unfold Seal.
  destruct (receivedForwardSecurePacket s.1).
  - destruct (Hflag eq_refl) as [a ->]. eauto.
  - destruct (secureAEAD s.1); eauto.
Qed.

(** ** Handling a CHLO *)

(** C1 (the code departs from the claim). A CHLO whose SCID matches the
    server config and whose STK fails verification for the peer address
    is not treated as inchoate: [isInchoateCHLO] answers false in the
    branch that found the STK invalid, and [handleMessage] goes the way of
    a full CHLO, which installs keys and answers with a SHLO. *)
Theorem C1_STK_failure_is_handled_as_full_CHLO h w chloData cryptoData sniSlice err :
  cryptoData !! TagSNI = Some sniSlice ->
  String.string_of_list_byte sniSlice <> ""%string ->
  cryptoData !! TagSCID = Some (ID (scfg h)) ->
  crypto.VerifyToken (stkSource (scfg h)) (ip h) (at_tag cryptoData TagSTK) = Some err ->
  isInchoateCHLO h cryptoData = false /\
  handleMessage chloData cryptoData (h, w) =
    (reply <- handleCHLO (String.string_of_list_byte sniSlice) chloData cryptoData ;;
     cryptoStream_Write reply ;;;
     ret true) (h, w).
Proof.
  intros Hsni Hne Hscid Hstk.
  assert (isInchoateCHLO h cryptoData = false) as Hin.
  { unfold isInchoateCHLO. rewrite Hscid, Hstk.
    by rewrite bool_decide_eq_true_2. }
  split; [done|].
  unfold handleMessage. rewrite Hsni. simpl.
  rewrite bool_decide_eq_false_2 by done.
  unfold bind at 1, self at 1. simpl. by rewrite Hin.
Qed.

(** C2 (amended). When a full CHLO has been handled, the SHLO has been
    serialised, then the signal on [aeadChanged] has fired, and only then
    the SHLO has been written to the crypto stream: the step adds to the
    trace the signal followed by the write. *)
Theorem C2_signal_precedes_SHLO_write chloData cryptoData s s' :
  handleMessage chloData cryptoData s = (Ok true, s') ->
  exists replyMap,
    trace s'.2 =
    trace s.2 ++ [EvAeadChanged;
                  EvStreamWrite (WriteHandshakeMessage TagSHLO replyMap)].
Proof.
  destruct s as [h w]. intros Hm. run_cases.
  eexists. by rewrite <- app_assoc.
Qed.

(** C6. An inchoate CHLO shorter than [ClientHelloMinimumSize] fails with
    the invalid-value-length error, in [handleInchoateCHLO] and so in
    [handleMessage]; a CHLO as short on the full-CHLO path is handled
    whenever the key exchange, the signer, the key derivation and the
    parameters manager succeed. *)
Theorem C6_size_minimum_on_inchoate_path_only sni data cryptoData h w :
  (length data < protocol.ClientHelloMinimumSize)%nat ->
  handleInchoateCHLO sni data cryptoData (h, w) =
    (Err (QuicError CryptoInvalidValueLength "CHLO too small"), (h, w)) /\
  (forall sniSlice,
     cryptoData !! TagSNI = Some sniSlice ->
     String.string_of_list_byte sniSlice <> ""%string ->
     isInchoateCHLO h cryptoData = true ->
     handleMessage data cryptoData (h, w) =
       (Err (QuicError CryptoInvalidValueLength "CHLO too small"), (h, w))) /\
  (forall sharedSecret cert aead ephermalKex fsSecret fsAead params',
     crypto.CalculateSharedKey (kex (scfg h)) (at_tag cryptoData TagPUBS) = Ok sharedSecret ->
     crypto.GetLeafCert (signer (scfg h)) sni = Ok cert ->
     keyDerivation h (version h) false sharedSecret (at_tag cryptoData TagNONC)
       (connID h) data (Get (scfg h)) cert (Some (diversificationNonce h)) = (aead, None) ->
     keyExchange h = Ok ephermalKex ->
     crypto.CalculateSharedKey ephermalKex (at_tag cryptoData TagPUBS) = Ok fsSecret ->
     keyDerivation h (version h) true fsSecret (at_tag cryptoData TagNONC ++ nonce h)
       (connID h) data (Get (scfg h)) cert None = (fsAead, None) ->
     SetFromMap (params w) cryptoData = (params', None) ->
     is_ok (handleCHLO sni data cryptoData (h, w)).1 = true).
Proof.
  intros Hshort.
  assert (forall sni', handleInchoateCHLO sni' data cryptoData (h, w) =
            (Err (QuicError CryptoInvalidValueLength "CHLO too small"), (h, w)))
    as Hfail.
  { intros sni'. unfold handleInchoateCHLO, bind, self. simpl.
    apply Nat.ltb_lt in Hshort. by rewrite Hshort. }
  split; [apply Hfail|]. split.
  - intros sniSlice Hsni Hne Hin. unfold handleMessage. rewrite Hsni. simpl.
    rewrite bool_decide_eq_false_2 by done.
    unfold bind at 1, self at 1. simpl. rewrite Hin. simpl.
    unfold bind at 1. by rewrite Hfail.
  - intros sharedSecret cert aead ephermalKex fsSecret fsAead params'
      Hkex Hcert Hkdf Hnew Hfs Hfskdf Hset.
    unfold handleCHLO, bind, self, lift, update, check, params_SetFromMap,
      params_GetSHLOMap, emit, ret. simpl.
    rewrite Hkex, Hcert, Hkdf. simpl. rewrite Hnew, Hfs, Hfskdf. simpl.
    by rewrite Hset.
Qed.

(** C8. When an inchoate CHLO is handled, [Sign] is called with the CHLO
    bytes exactly when the version is greater than 30, and with nil when
    the version is at most 30; its failure is the failure of the
    handling. *)
Theorem C8_CHLO_in_server_proof sni data cryptoData h w :
  (protocol.ClientHelloMinimumSize <= length data)%nat ->
  exists chloOrNil,
    trace (handleInchoateCHLO sni data cryptoData (h, w)).2.2 =
      trace w ++ [EvSign sni chloOrNil] /\
    (forall e, Sign (scfg h) sni chloOrNil = Err e ->
               (handleInchoateCHLO sni data cryptoData (h, w)).1 = Err e) /\
    (chloOrNil = Some data <-> (30 < version h)%Z) /\
    ((version h <= 30)%Z -> chloOrNil = None).
Proof.
  intros Hlong. apply Nat.ltb_ge in Hlong.
  exists (if (30 <? version h)%Z then Some data else None).
  repeat split.
  - unfold handleInchoateCHLO, bind, self, emit, lift, ret. simpl.
    rewrite Hlong. repeat case_match; simplify_eq; done.
  - intros e He. unfold handleInchoateCHLO, bind, self, emit, lift, ret. simpl.
    by rewrite Hlong, He.
  - destruct (Z.ltb_spec 30 (version h)); [done | discriminate].
  - intros Hv. apply Z.ltb_lt in Hv. by rewrite Hv.
  - intros Hv. destruct (Z.ltb_spec 30 (version h)); [lia | done].
Qed.

(** ** The handshake loop *)

Lemma HandleCryptoStream_turns k fuel s s1 :
  turns k s = Some s1 ->
  HandleCryptoStream (k + fuel) s = HandleCryptoStream fuel s1.
Proof.
  revert s. induction k as [|k IH]; intros s; simpl.
  - by intros [= ->].
  - destruct (HandleCryptoStream_body s) as [[|e] s2]; [apply IH | done].
Qed.

(** C7. At any turn of the loop of [HandleCryptoStream], a message whose
    tag is not CHLO makes it return the invalid-crypto-message-type error;
    the message is not handled: the CryptoSetup and the trace are as they
    were when the message was read. *)
Theorem C7_non_CHLO_message_is_refused k fuel s s1 messageTag cryptoData n :
  turns k s = Some s1 ->
  ParseHandshakeMessage (unread s1.2) = (Ok (messageTag, cryptoData), n) ->
  messageTag <> TagCHLO ->
  HandleCryptoStream (k + S fuel) s =
    (Some (Some (CodeError InvalidCryptoMessageType)),
     (s1.1, set_unread (drop n (unread s1.2)) s1.2)).
Proof.
  intros Hturns Hparse Htag.
  rewrite (HandleCryptoStream_turns k (S fuel) s s1 Hturns). simpl.
  unfold HandleCryptoStream_body, readMessage. rewrite Hparse. simpl.
  by rewrite bool_decide_eq_false_2.
Qed.

End HandshakeProperties.

(** * Properties of the server's packet dispatch *)

Section ServerProperties.
Context `{ext : !quic.Externals}.

(** The events that [handlePacket] adds for a packet, when the entry of
    [id] is nil: none concerns [id], and the entry stays nil. *)
Lemma handlePacket_closed id s w remoteAddr packet :
  quic.sessions s !! id = Some None ->
  quic.sessions (quic.handlePacket s w remoteAddr packet).1.2 !! id = Some None /\
  exists new,
    quic.trace (quic.handlePacket s w remoteAddr packet).2 = quic.trace w ++ new /\
    forallb (fun e => negb (quic.concerns id e)) new = true.
Proof.
  intros Hclosed. unfold quic.handlePacket, quic.WriteToUDP.
  destruct (quic.MaxPacketSize <? length packet); simpl.
  { split; [done|]. exists []. by rewrite app_nil_r. }
  destruct (quic.parsePublicHeader packet) as [[hdr rLen]|err]; simpl.
  2: { split; [done|]. exists []. by rewrite app_nil_r. }
  case_match.
  { destruct (quic.udpError w); simpl.
    - split; [done|]. exists []. by rewrite app_nil_r.
    - split; [done|]. by eexists [_]. }
  destruct (decide (quic.ConnectionID hdr = id)) as [->|Hne].
  { rewrite Hclosed. split; [done|]. exists []. by rewrite app_nil_r. }
  destruct (quic.sessions s !! quic.ConnectionID hdr) as [[session|]|] eqn:Hs.
  - split; [done|]. eexists [_]. split; [done|]. simpl.
    by rewrite bool_decide_eq_false_2.
  - split; [done|]. exists []. by rewrite app_nil_r.
  - destruct (quic.newSession s remoteAddr (quic.VersionNumber hdr)
                (quic.ConnectionID hdr)) as [session|err]; simpl.
    + split; [by rewrite lookup_insert_ne|].
      eexists [_; _; _]. split; [by rewrite <- !app_assoc|]. simpl.
      by rewrite !bool_decide_eq_false_2.
    + split; [done|]. eexists [_]. split; [done|]. simpl.
      by rewrite bool_decide_eq_false_2.
Qed.

Lemma run_ops_closed id ops s w :
  quic.sessions s !! id = Some None ->
  quic.sessions (quic.run_ops ops (s, w)).1 !! id = Some None /\
  exists new, quic.trace (quic.run_ops ops (s, w)).2 = quic.trace w ++ new /\
              forallb (fun e => negb (quic.concerns id e)) new = true.
Proof.
  revert s w. induction ops as [|o ops IH]; intros s w Hclosed; simpl.
  - split; [done|]. exists []. by rewrite app_nil_r.
  - unfold quic.run_ops in *. simpl.
    destruct o as [remoteAddr packet|id']; simpl.
    + pose proof (handlePacket_closed id s w remoteAddr packet Hclosed) as Hp.
      destruct (quic.handlePacket s w remoteAddr packet) as [[r s'] w'].
      simpl in Hp. destruct Hp as (Hclosed' & new & Htrace & Hnew).
      destruct (IH s' w' Hclosed') as (Hfinal & new' & Htrace' & Hnew').
      split; [done|]. exists (new ++ new'). split.
      * by rewrite Htrace', Htrace, app_assoc.
      * by rewrite forallb_app, Hnew, Hnew'.
    + apply IH. unfold quic.closeCallback. simpl.
      destruct (decide (id' = id)) as [->|Hne].
      * by rewrite lookup_insert_eq.
      * by rewrite lookup_insert_ne.
Qed.

(** C10 (amended). After [closeCallback] has mapped a connection ID to
    nil, the entry stays nil whatever packets arrive and sessions close
    later, no session is created for that connection ID and no packet
    that carries it is handed to a session.  A later packet of at most
    [MaxPacketSize] bytes that carries the connection ID and does not ask
    for version negotiation is dropped: [handlePacket] returns nil and
    leaves the server and the socket as they were. *)
Theorem C10_late_packet_for_closed_session id s w :
  (forall ops,
     quic.sessions (quic.run_ops ops (quic.closeCallback id s, w)).1 !! id = Some None /\
     exists new,
       quic.trace (quic.run_ops ops (quic.closeCallback id s, w)).2 =
         quic.trace w ++ new /\
       forallb (fun e => negb (quic.concerns id e)) new = true) /\
  (forall ops remoteAddr packet hdr rLen,
     (length packet <= quic.MaxPacketSize)%nat ->
     quic.parsePublicHeader packet = Ok (hdr, rLen) ->
     quic.ConnectionID hdr = id ->
     quic.VersionFlag hdr && negb (quic.IsSupportedVersion (quic.VersionNumber hdr)) = false ->
     let sw := quic.run_ops ops (quic.closeCallback id s, w) in
     quic.handlePacket sw.1 sw.2 remoteAddr packet = (None, sw.1, sw.2)).
Proof.
  assert (quic.sessions (quic.closeCallback id s) !! id = Some None) as Hclosed.
  { unfold quic.closeCallback. simpl. by rewrite lookup_insert_eq. }
  split.
  - intros ops. by apply run_ops_closed.
  - intros ops remoteAddr packet hdr rLen Hsize Hparse Hid Hversion sw.
    destruct (run_ops_closed id ops _ w Hclosed) as [Hlate _].
    fold sw in Hlate. unfold quic.handlePacket.
    apply Nat.ltb_ge in Hsize. rewrite Hsize, Hparse. simpl.
    rewrite Hversion, Hid. by rewrite Hlate.
Qed.

End ServerProperties.

(** * Further properties of the handshake *)

Section MoreHandshakeProperties.
Context `{ext : !Externals}.

Ltac run_monad :=
  unfold handleMessage, handleCHLO, handleInchoateCHLO, params_SetFromMap,
    params_GetSHLOMap, cryptoStream_Write, bind, ret, fail, lift, check,
    self, update, emit in *;
  simpl in *.

Ltac run_cases :=
  repeat first [ progress run_monad | case_match; simplify_eq ].

Lemma string_of_list_byte_empty (l : bytes) :
  String.string_of_list_byte l = ""%string <-> l = [].
Proof. destruct l; simpl; split; intros; done. Qed.

(** ** handleMessage *)

(** X1. A CHLO whose SNI tag is missing or empty is refused with the
    parameter-not-found error, and nothing else happens. *)
Theorem X1_CHLO_without_SNI_is_refused chloData cryptoData s :
  at_tag cryptoData TagSNI = [] ->
  handleMessage chloData cryptoData s =
    (Err (QuicError CryptoMessageParameterNotFound "SNI required"), s).
Proof.
  unfold at_tag, handleMessage. destruct (cryptoData !! TagSNI); simpl.
  - by intros ->.
  - done.
Qed.

(** What a handled message leaves of the CryptoSetup: the two AEAD slots
    may be assigned, and nothing else. *)
Lemma handleMessage_same_setup chloData cryptoData h w :
  let h' := (handleMessage chloData cryptoData (h, w)).2.1 in
  same_setup h h' /\
  receivedForwardSecurePacket h' = receivedForwardSecurePacket h /\
  receivedSecurePacket h' = receivedSecurePacket h.
Proof. unfold same_setup. run_cases; done. Qed.

(** What [done = true] tells about a handled message. *)
Lemma handleMessage_done_inv chloData cryptoData h w s' :
  handleMessage chloData cryptoData (h, w) = (Ok true, s') ->
  exists sharedSecret cert aead ephermalKex fsSecret fsAead params',
    crypto.CalculateSharedKey (kex (scfg h)) (at_tag cryptoData TagPUBS) = Ok sharedSecret /\
    crypto.GetLeafCert (signer (scfg h))
      (String.string_of_list_byte (at_tag cryptoData TagSNI)) = Ok cert /\
    keyDerivation h (version h) false sharedSecret (at_tag cryptoData TagNONC)
      (connID h) chloData (Get (scfg h)) cert (Some (diversificationNonce h))
      = (aead, None) /\
    keyExchange h = Ok ephermalKex /\
    crypto.CalculateSharedKey ephermalKex (at_tag cryptoData TagPUBS) = Ok fsSecret /\
    keyDerivation h (version h) true fsSecret (at_tag cryptoData TagNONC ++ nonce h)
      (connID h) chloData (Get (scfg h)) cert None = (fsAead, None) /\
    SetFromMap (params w) cryptoData = (params', None) /\
    s' = (set_forwardSecureAEAD fsAead (set_secureAEAD aead h),
          add_event
            (EvStreamWrite
               (WriteHandshakeMessage TagSHLO
                  (<[TagVER := SupportedVersionsAsTags]>
                     (<[TagSNO := nonce h]>
                        (<[TagPUBS := crypto.PublicKey ephermalKex]>
                           (GetSHLOMap params'))))))
            (add_event EvAeadChanged (set_params params' w))).
Proof.
  intros Hm. run_cases.
  match goal with
  | H : cryptoData !! TagSNI = Some ?l |- _ =>
    assert (at_tag cryptoData TagSNI = l) as -> by (unfold at_tag; by rewrite H)
  end.
  do 7 eexists. repeat split; eauto.
Qed.

(** X2. When a CHLO is handled as inchoate ([done = false]), the CHLO had
    at least 1024 bytes, the CryptoSetup is as before, and the message
    written to the stream is a REJ with exactly the tags SCFG, CERT, PROF
    and STK: the server config, the compressed certificates for the SNI
    and the client's CCS and CCRT hashes, the proof, and a new token for
    the peer address. *)
Theorem X2_inchoate_CHLO_is_answered_with_REJ chloData cryptoData h w s' :
  handleMessage chloData cryptoData (h, w) = (Ok false, s') ->
  s'.1 = h /\
  (protocol.ClientHelloMinimumSize <= length chloData)%nat /\
  exists chloOrNil proof cert token rej,
    let sni := String.string_of_list_byte (at_tag cryptoData TagSNI) in
    Sign (scfg h) sni chloOrNil = Ok proof /\
    GetCertsCompressed (scfg h) sni (at_tag cryptoData TagCCS)
      (at_tag cryptoData TagCCRT) = Ok cert /\
    crypto.NewToken (stkSource (scfg h)) (ip h) = Ok token /\
    dom rej = ({[TagSCFG; TagCERT; TagPROF; TagSTK]} : gset N) /\
    rej !! TagSCFG = Some (Get (scfg h)) /\
    rej !! TagCERT = Some cert /\
    rej !! TagPROF = Some proof /\
    rej !! TagSTK = Some token /\
    trace s'.2 =
      trace w ++ [EvSign sni chloOrNil;
                  EvStreamWrite (WriteHandshakeMessage TagREJ rej)].
Proof.
  intros Hm. run_cases.
  all: match goal with
       | H : ?cd !! TagSNI = Some ?l |- _ =>
         assert (at_tag cd TagSNI = l) as ->
           by (unfold at_tag; by rewrite H)
       end.
  all: split; [done|]; split;
    [match goal with H : (_ <? _) = false |- _ => by apply Nat.ltb_ge in H end|].
  all: match goal with
       | Hs : Sign _ _ ?c = Ok ?p,
         Hc : GetCertsCompressed _ _ _ _ = Ok ?ce,
         Ht : crypto.NewToken (stkSource (scfg ?h0)) _ = Ok ?t |- _ =>
         exists c, p, ce, t,
           (<[TagSCFG := Get (scfg h0)]>
              (<[TagCERT := ce]> (<[TagPROF := p]> {[TagSTK := t]})))
       end; simpl.
  all: split_and!; try done.
  all: try (rewrite !dom_insert_L, dom_singleton_L; set_solver).
  all: by rewrite <- app_assoc.
Qed.

(** X3. A CHLO without the SCID tag, or with an SCID other than the
    server config's, never completes the handshake: whatever else it
    carries, no AEAD is installed and [aeadChanged] is not signalled. *)
Theorem X3_CHLO_without_matching_SCID_installs_nothing chloData cryptoData h w :
  cryptoData !! TagSCID <> Some (ID (scfg h)) ->
  let run := handleMessage chloData cryptoData (h, w) in
  run.1 <> Ok true /\ run.2.1 = h /\
  exists new, trace run.2.2 = trace w ++ new /\ signals new = 0.
Proof.
  intros Hscid.
  assert (isInchoateCHLO h cryptoData = true) as Hin.
  { unfold isInchoateCHLO. destruct (cryptoData !! TagSCID) as [scid|]; [|done].
    rewrite bool_decide_eq_false_2; [done|]. congruence. }
  simpl.
  destruct (handleMessage chloData cryptoData (h, w)) as [r [h' w']] eqn:Hm.
  simpl. unfold handleMessage in Hm.
  destruct (cryptoData !! TagSNI) as [sniSlice|]; simpl in Hm.
  2: { run_monad. simplify_eq. split_and!; [done..|].
       exists []. by rewrite app_nil_r. }
  destruct (bool_decide (String.string_of_list_byte sniSlice = ""%string)).
  { run_monad. simplify_eq. split_and!; [done..|].
    exists []. by rewrite app_nil_r. }
  unfold bind at 1, self at 1 in Hm. simpl in Hm. rewrite Hin in Hm.
  simpl in Hm. run_cases; simplify_eq; (split; [done|]); (split; [done|]).
  all: try (exists []; by rewrite app_nil_r).
  all: try (eexists [_]; split; [done|done]).
  all: eexists [_; _]; split; [by rewrite <- app_assoc|done].
Qed.

(** X4. When a full CHLO has been handled, both AEAD slots hold what the
    key derivation returned without error, from the same CHLO bytes,
    server config and leaf certificate: the secure AEAD from the static
    key exchange, the client nonce and the diversification nonce; the
    forward-secure AEAD from the ephemeral key exchange, the client nonce
    followed by the server nonce, and no diversification nonce.  The
    flags and the other fields are as before. *)
Theorem X4_full_CHLO_installs_both_AEADs chloData cryptoData h w s' :
  handleMessage chloData cryptoData (h, w) = (Ok true, s') ->
  exists sharedSecret cert ephermalKex fsSecret,
    crypto.CalculateSharedKey (kex (scfg h)) (at_tag cryptoData TagPUBS) = Ok sharedSecret /\
    crypto.GetLeafCert (signer (scfg h))
      (String.string_of_list_byte (at_tag cryptoData TagSNI)) = Ok cert /\
    keyExchange h = Ok ephermalKex /\
    crypto.CalculateSharedKey ephermalKex (at_tag cryptoData TagPUBS) = Ok fsSecret /\
    keyDerivation h (version h) false sharedSecret (at_tag cryptoData TagNONC)
      (connID h) chloData (Get (scfg h)) cert (Some (diversificationNonce h))
      = (secureAEAD s'.1, None) /\
    keyDerivation h (version h) true fsSecret (at_tag cryptoData TagNONC ++ nonce h)
      (connID h) chloData (Get (scfg h)) cert None
      = (forwardSecureAEAD s'.1, None) /\
    same_setup h s'.1 /\
    receivedForwardSecurePacket s'.1 = receivedForwardSecurePacket h /\
    receivedSecurePacket s'.1 = receivedSecurePacket h.
Proof.
  intros (sharedSecret & cert & aead & ephermalKex & fsSecret & fsAead & params'
          & Hkex & Hcert & Hkdf & Hnew & Hfs & Hfskdf & _ & ->)%handleMessage_done_inv.
  exists sharedSecret, cert, ephermalKex, fsSecret. unfold same_setup. simpl.
  repeat split; done.
Qed.

(** X5. The SHLO written for a full CHLO is the parameter map of the
    connection-parameters manager, taken after the manager has read the
    CHLO, with PUBS set to the public key of the ephemeral key exchange,
    SNO to the server nonce and VER to the supported versions; it is the
    last message on the stream. *)
Theorem X5_SHLO_contents chloData cryptoData h w s' :
  handleMessage chloData cryptoData (h, w) = (Ok true, s') ->
  exists ephermalKex shlo,
    keyExchange h = Ok ephermalKex /\
    SetFromMap (params w) cryptoData = (params s'.2, None) /\
    last (trace s'.2) = Some (EvStreamWrite (WriteHandshakeMessage TagSHLO shlo)) /\
    shlo !! TagPUBS = Some (crypto.PublicKey ephermalKex) /\
    shlo !! TagSNO = Some (nonce h) /\
    shlo !! TagVER = Some SupportedVersionsAsTags /\
    (forall t, t <> TagPUBS -> t <> TagSNO -> t <> TagVER ->
               shlo !! t = GetSHLOMap (params s'.2) !! t).
Proof.
  intros (sharedSecret & cert & aead & ephermalKex & fsSecret & fsAead & params'
          & Hkex & Hcert & Hkdf & Hnew & Hfs & Hfskdf & Hset & ->)%handleMessage_done_inv.
  exists ephermalKex. eexists. simpl.
  split; [done|]. split; [done|]. split; [by rewrite last_snoc|].
  repeat split.
  - by rewrite lookup_insert_ne, lookup_insert_ne, lookup_insert_eq.
  - by rewrite lookup_insert_ne, lookup_insert_eq.
  - by rewrite lookup_insert_eq.
  - intros t H1 H2 H3. by rewrite !lookup_insert_ne.
Qed.

(** ** handleCHLO, the loop and the signal *)

(** X6. When [handleCHLO] fails, nothing was signalled and nothing
    written; when it is the static key exchange or the leaf certificate
    that failed, no AEAD slot was assigned either. *)
Theorem X6_failed_CHLO_sends_no_signal sni data cryptoData h w e s' :
  handleCHLO sni data cryptoData (h, w) = (Err e, s') ->
  trace s'.2 = trace w /\
  (is_ok (crypto.CalculateSharedKey (kex (scfg h)) (at_tag cryptoData TagPUBS)) = false \/
   is_ok (crypto.GetLeafCert (signer (scfg h)) sni) = false ->
   s'.1 = h).
Proof.
  intros Hm. run_cases; simplify_eq; simpl.
  all: split; [done|]; intros [?|?]; done.
Qed.

Lemma signals_app t1 t2 : signals (t1 ++ t2) = (signals t1 + signals t2)%nat.
Proof.
  induction t1 as [|[] t1 IH]; simpl; by rewrite ?IH.
Qed.

(** The events of one handled message. *)
Lemma handleMessage_trace chloData cryptoData h w :
  exists new,
    trace (handleMessage chloData cryptoData (h, w)).2.2 = trace w ++ new /\
    match (handleMessage chloData cryptoData (h, w)).1 with
    | Ok true => exists shlo, new = [EvAeadChanged; EvStreamWrite shlo]
    | Ok false => signals new = 0
    | Err _ => (signals new <= 1)%nat
    end.
Proof.
  destruct (handleMessage chloData cryptoData (h, w)) as [r [h' w']] eqn:Hm.
  simpl. run_cases; simplify_eq; simpl.
  all: try (exists []; split; [by rewrite app_nil_r | simpl; lia]).
  all: try (eexists [_]; split; [done | simpl; lia]).
  all: try (eexists [_; _]; split; [by rewrite <- app_assoc | simpl; eauto]).
Qed.

Lemma HandleCryptoStream_body_trace s :
  exists new,
    trace (HandleCryptoStream_body s).2.2 = trace s.2 ++ new /\
    match (HandleCryptoStream_body s).1 with
    | Continue => signals new = 0
    | Return None => exists shlo, new = [EvAeadChanged; EvStreamWrite shlo]
    | Return (Some _) => (signals new <= 1)%nat
    end.
Proof.
  destruct s as [h w]. unfold HandleCryptoStream_body, readMessage. simpl.
  destruct (ParseHandshakeMessage (unread w)) as [[[tag cryptoData]|err] n]; simpl.
  2: { exists []. split; [by rewrite app_nil_r | simpl; lia]. }
  case_match; simpl.
  { exists []. split; [by rewrite app_nil_r | simpl; lia]. }
  match goal with
  | |- context [handleMessage ?d ?c (h, ?w0)] =>
    destruct (handleMessage_trace d c h w0) as (new & Htrace & Hnew);
    destruct (handleMessage d c (h, w0)) as [[[]|err] [h' w']]
  end; simpl in *; by exists new.
Qed.

(** X7. A run of [HandleCryptoStream] signals [aeadChanged] at most
    once.  When it returns nil, the signal and the write of the SHLO are
    the last two events and no signal precedes them; as long as the loop
    runs, nothing was signalled. *)
Theorem X7_at_most_one_signal_per_run fuel s :
  exists new,
    trace (HandleCryptoStream fuel s).2.2 = trace s.2 ++ new /\
    (signals new <= 1)%nat /\
    ((HandleCryptoStream fuel s).1 = Some None ->
     exists before shlo,
       new = before ++ [EvAeadChanged; EvStreamWrite shlo] /\
       signals before = 0) /\
    ((HandleCryptoStream fuel s).1 = None -> signals new = 0).
Proof.
  revert s. induction fuel as [|fuel IH]; intros s; simpl.
  { exists []. rewrite app_nil_r. split_and!; [done | simpl; lia | done | done]. }
  destruct (HandleCryptoStream_body_trace s) as (new1 & Htrace1 & Hnew1).
  destruct (HandleCryptoStream_body s) as [[|[err|]] s1]; simpl in *.
  - destruct (IH s1) as (new2 & Htrace2 & Hle & Hnil & Hrun).
    exists (new1 ++ new2). rewrite Htrace2, Htrace1, app_assoc, signals_app, Hnew1.
    split_and!; [done | simpl; lia | | simpl; auto].
    intros (before & shlo & -> & Hbefore)%Hnil.
    exists (new1 ++ before), shlo. rewrite signals_app, Hnew1, Hbefore.
    by rewrite app_assoc.
  - exists new1. split_and!; [done | done | done | done].
  - destruct Hnew1 as [shlo ->]. eexists. split_and!; [done | simpl; lia | | done].
    intros _. by exists [], shlo.
Qed.

(** X8. At any turn of the loop, a message that cannot be read or parsed
    makes [HandleCryptoStream] return the error of the parser; nothing
    is handled. *)
Theorem X8_read_error_is_returned k fuel s s1 err n :
  turns k s = Some s1 ->
  ParseHandshakeMessage (unread s1.2) = (Err err, n) ->
  HandleCryptoStream (k + S fuel) s =
    (Some (Some err), (s1.1, set_unread (drop n (unread s1.2)) s1.2)).
Proof.
  intros Hturns Hparse.
  rewrite (HandleCryptoStream_turns k (S fuel) s s1 Hturns). simpl.
  unfold HandleCryptoStream_body, readMessage. by rewrite Hparse.
Qed.

(** X23. When the crypto stream refuses the write of the SHLO,
    [handleMessage] returns the error of the stream; by then the full
    CHLO has installed the AEADs and signalled [aeadChanged], and the
    state is the one [handleCHLO] left. *)
Theorem X23_stream_failure_comes_after_the_signal chloData cryptoData h w sniSlice e reply s1 :
  cryptoData !! TagSNI = Some sniSlice ->
  String.string_of_list_byte sniSlice <> ""%string ->
  isInchoateCHLO h cryptoData = false ->
  writeError w = Some e ->
  handleCHLO (String.string_of_list_byte sniSlice) chloData cryptoData (h, w)
    = (Ok reply, s1) ->
  handleMessage chloData cryptoData (h, w) = (Err e, s1) /\
  trace s1.2 = trace w ++ [EvAeadChanged].
Proof.
  intros Hsni Hne Hin Hbroken Hchlo.
  assert (writeError s1.2 = Some e /\ trace s1.2 = trace w ++ [EvAeadChanged])
    as [Hstill Htrace].
  { clear Hsni Hne Hin. run_cases; simplify_eq; simpl; done. }
  split; [|done].
  unfold handleMessage. rewrite Hsni. simpl.
  rewrite bool_decide_eq_false_2 by done.
  unfold bind at 1, self at 1. simpl. rewrite Hin. simpl.
  unfold bind at 1. rewrite Hchlo.
  unfold bind, cryptoStream_Write. by rewrite Hstill.
Qed.

(** ** Open, Seal and the flags *)

Lemma same_setup_refl h : same_setup h h.
Proof. by unfold same_setup. Qed.

Lemma same_setup_trans h1 h2 h3 :
  same_setup h1 h2 -> same_setup h2 h3 -> same_setup h1 h3.
Proof. unfold same_setup. intros. destruct_and!. split_and!; congruence. Qed.

Lemma OpenVia_flags h pn ad ct :
  let h' := (OpenVia h pn ad ct).2 in
  same_setup h h' /\
  (receivedForwardSecurePacket h = true -> receivedForwardSecurePacket h' = true) /\
  (receivedSecurePacket h = true -> receivedSecurePacket h' = true).
Proof. unfold OpenVia, same_setup. repeat case_match; simpl; done. Qed.

(** X9. Through the life of a CryptoSetup the two flags are never
    reset, and the connection ID, peer address, version, server config,
    nonces, key derivation and key exchange stay what [NewCryptoSetup]
    made them. *)
Theorem X9_flags_are_never_reset ps ps' :
  rtc step ps ps' ->
  same_setup ps.2.1 ps'.2.1 /\
  (receivedForwardSecurePacket ps.2.1 = true ->
   receivedForwardSecurePacket ps'.2.1 = true) /\
  (receivedSecurePacket ps.2.1 = true -> receivedSecurePacket ps'.2.1 = true).
Proof.
  induction 1 as [ps|ps1 ps2 ps3 Hstep _ IH].
  { split; [apply same_setup_refl | done]. }
  assert (same_setup ps1.2.1 ps2.2.1 /\
          (receivedForwardSecurePacket ps1.2.1 = true ->
           receivedForwardSecurePacket ps2.2.1 = true) /\
          (receivedSecurePacket ps1.2.1 = true ->
           receivedSecurePacket ps2.2.1 = true)) as Hone.
  { destruct Hstep; simpl.
    - split; [apply same_setup_refl | done].
    - split; [apply same_setup_refl | done].
    - destruct s as [h w]. unfold HandleCryptoStream_body, readMessage. simpl.
      destruct (ParseHandshakeMessage (unread w)) as [[[tag cryptoData]|err] n];
        simpl; [|split; [apply same_setup_refl | done]].
      case_match; simpl; [split; [apply same_setup_refl | done]|].
      match goal with
      | |- context [handleMessage ?d ?c (h, ?w0)] =>
        destruct (handleMessage_same_setup d c h w0) as (Hsame & Hfs & Hsec);
        destruct (handleMessage d c (h, w0)) as [[[]|err] [h' w']]
      end; simpl in *; rewrite Hfs, Hsec; done.
    - rewrite Open_OpenVia. simpl. apply OpenVia_flags. }
  destruct Hone as (Hs1 & Hf1 & Hc1). destruct IH as (Hs2 & Hf2 & Hc2).
  split_and!; [by eapply same_setup_trans | auto | auto].
Qed.

(** X10. An [Open] that fails leaves the CryptoSetup as it was: the
    flags move on a successful decryption only. *)
Theorem X10_failed_Open_changes_nothing h pn ad ct e :
  (Open h pn ad ct).1 = Err e -> (Open h pn ad ct).2 = h.
Proof.
  rewrite Open_OpenVia. unfold OpenVia. simpl.
  repeat case_match; simpl; done.
Qed.

(** X11. [Open] succeeds exactly when an AEAD it may try opens the
    packet: the forward-secure AEAD; unless a forward-secure packet was
    received, the secure AEAD; unless a packet was received under either,
    the null AEAD.  A flag counts only while its AEAD is installed. *)
Theorem X11_Open_succeeds_iff_a_permitted_AEAD_opens h pn ad ct :
  is_ok (Open h pn ad ct).1 =
    opens (forwardSecureAEAD h) pn ad ct ||
    (negb (negb (is_nil (forwardSecureAEAD h)) && receivedForwardSecurePacket h) &&
     (opens (secureAEAD h) pn ad ct ||
      (negb (negb (is_nil (secureAEAD h)) && receivedSecurePacket h) &&
       is_ok (crypto.Open NullAEAD pn ad ct)))).
Proof.
  rewrite Open_OpenVia. unfold OpenVia, opens. simpl.
  repeat case_match; simpl; done.
Qed.

(** X12. A CryptoSetup that [NewCryptoSetup] has just made uses the null
    AEAD only: every [Open] of any sequence is answered by the null AEAD
    and leaves the state as it was, [Seal] seals with the null AEAD, and
    there is no diversification nonce to send. *)
Theorem X12_fresh_CryptoSetup_uses_NullAEAD connID ip version scfg rand h calls pn ad pt :
  NewCryptoSetup connID ip version scfg rand = Ok h ->
  OpenAll h calls =
    (map (fun c => (Null, crypto.Open NullAEAD c.1.1 c.1.2 c.2)) calls, h) /\
  Seal h pn ad pt = Some (crypto.Seal NullAEAD pn ad pt) /\
  DiversificationNonce h = None.
Proof.
  intros Hnew.
  assert (forwardSecureAEAD h = None /\ secureAEAD h = None /\
          receivedForwardSecurePacket h = false) as (Hfs & Hsec & Hflag).
  { by apply NewCryptoSetup_fresh in Hnew as (? & ? & ? & _). }
  split_and!.
  - induction calls as [|[[pn' ad'] ct'] rest IH]; simpl; [done|].
    unfold OpenVia. rewrite Hfs, Hsec. by rewrite IH.
  - unfold Seal. by rewrite Hflag, Hsec.
  - unfold DiversificationNonce. rewrite Hflag, Hsec. simpl. by case_match.
Qed.

(** X13. [NewCryptoSetup] succeeds exactly when the entropy source
    delivers 64 bytes; the server nonce is the first 32 of them and the
    diversification nonce the next 32. *)
Theorem X13_NewCryptoSetup_reads_64_bytes connID ip version scfg rand :
  (is_ok (NewCryptoSetup connID ip version scfg rand) = true <-> (64 <= length rand)%nat) /\
  (forall h, NewCryptoSetup connID ip version scfg rand = Ok h ->
             nonce h = take 32 rand /\
             diversificationNonce h = take 32 (drop 32 rand) /\
             length (nonce h) = 32 /\ length (diversificationNonce h) = 32).
Proof.
  unfold NewCryptoSetup, ReadFull. split.
  - destruct (Nat.ltb_spec (length rand) 32) as [Hlt|Hge]; simpl; [split; [done | lia]|].
    rewrite length_drop.
    destruct (Nat.ltb_spec (length rand - 32) 32); simpl; split; (done || lia).
  - intros h Hnew.
    destruct (Nat.ltb_spec (length rand) 32) as [Hlt|Hge]; simpl in Hnew; [done|].
    rewrite length_drop in Hnew.
    destruct (Nat.ltb_spec (length rand - 32) 32); simpl in Hnew; [done|].
    simplify_eq. simpl. rewrite !length_take, length_drop.
    split_and!; [done | done | lia | lia].
Qed.


(** X15. Whenever there is a diversification nonce to send, [Seal] seals
    with the secure AEAD: the nonce accompanies packets under the
    initial key only. *)
Theorem X15_nonce_goes_with_the_secure_AEAD h n :
  DiversificationNonce h = Some n ->
  exists aead,
    secureAEAD h = Some aead /\
    forall pn ad pt, Seal h pn ad pt = Some (crypto.Seal aead pn ad pt).
Proof.
  unfold DiversificationNonce, Seal. intros Hn.
  destruct (version h <? 33)%Z; [done|].
  destruct (receivedForwardSecurePacket h); [done|].
  destruct (secureAEAD h) as [aead|]; [|done]. by exists aead.
Qed.

End MoreHandshakeProperties.

(** * Further properties of the server's packet dispatch *)

Section MoreServerProperties.
Context `{ext : !quic.Externals}.

(** The ways through [handlePacket], for a packet whose header parses. *)
Lemma handlePacket_parsed s w remoteAddr packet hdr0 rLen :
  (length packet <= quic.MaxPacketSize)%nat ->
  quic.parsePublicHeader packet = Ok (hdr0, rLen) ->
  let hdr := quic.set_Raw (take (length packet - rLen) packet) hdr0 in
  let id := quic.ConnectionID hdr0 in
  let v := quic.VersionNumber hdr0 in
  let data := drop (length packet - rLen) packet in
  quic.handlePacket s w remoteAddr packet =
    if quic.VersionFlag hdr0 && negb (quic.IsSupportedVersion v) then
      match quic.udpError w with
      | Some err => (Some err, s, w)
      | None =>
        (None, s,
         quic.add_event
           (quic.EvWriteToUDP (quic.composeVersionNegotiation id) remoteAddr) w)
      end
    else
      match quic.sessions s !! id with
      | Some (Some session) =>
        (None, s, quic.add_event (quic.EvHandlePacket session remoteAddr hdr data) w)
      | Some None => (None, s, w)
      | None =>
        match quic.newSession s remoteAddr v id with
        | Err err => (Some err, s, quic.add_event (quic.EvNewSession v id) w)
        | Ok session =>
          (None, quic.set_sessions (<[id := Some session]> (quic.sessions s)) s,
           quic.add_event (quic.EvHandlePacket session remoteAddr hdr data)
             (quic.add_event (quic.EvRun session)
                (quic.add_event (quic.EvNewSession v id) w)))
        end
      end.
Proof.
  intros Hsize Hparse. simpl. unfold quic.handlePacket, quic.WriteToUDP.
  apply Nat.ltb_ge in Hsize. rewrite Hsize, Hparse. simpl.
  repeat case_match; simplify_eq; done.
Qed.

(** X16. When [handlePacket] returns an error, the sessions are as they
    were, no session was started and no packet was handed to a session. *)
Theorem X16_refused_packet_reaches_no_session s w remoteAddr packet e s' w' :
  quic.handlePacket s w remoteAddr packet = (Some e, s', w') ->
  s' = s /\
  exists new,
    quic.trace w' = quic.trace w ++ new /\
    forallb (fun ev => negb (quic.reaches_session ev)) new = true.
Proof.
  unfold quic.handlePacket, quic.WriteToUDP. intros Hp.
  repeat case_match; simplify_eq; simpl; (split; [done|]).
  all: try (exists []; by rewrite app_nil_r).
  all: by eexists [_].
Qed.

(** X17. A packet is handed only to the session that the map holds for
    the connection ID of its header, with the address it came from; the
    header's raw bytes followed by the data handed over are the packet. *)
Theorem X17_packet_goes_to_the_session_of_its_connection s w remoteAddr packet r s' w' :
  quic.handlePacket s w remoteAddr packet = (r, s', w') ->
  exists new,
    quic.trace w' = quic.trace w ++ new /\
    forall session addr hdr data,
      quic.EvHandlePacket session addr hdr data ∈ new ->
      r = None /\ addr = remoteAddr /\
      quic.sessions s' !! quic.ConnectionID hdr = Some (Some session) /\
      quic.Raw hdr ++ data = packet /\
      exists hdr0 rLen,
        quic.parsePublicHeader packet = Ok (hdr0, rLen) /\
        hdr = quic.set_Raw (quic.Raw hdr) hdr0.
Proof.
  unfold quic.handlePacket, quic.WriteToUDP. intros Hp.
  repeat case_match; simplify_eq; simpl.
  all: try (exists []; split; [by rewrite app_nil_r|];
            intros ???? Hin; by apply elem_of_nil in Hin).
  all: try (eexists [_]; split; [done|]; intros ???? Hin;
            apply list_elem_of_singleton in Hin; by simplify_eq).
  all: try (eexists [_]; split; [done|]; intros ???? Hin;
            apply list_elem_of_singleton in Hin; simplify_eq; simpl;
            split_and!; [done | done | done | apply take_drop | by eauto]).
  eexists [_; _; _]. split; [by rewrite <- !app_assoc|].
  intros ???? Hin. repeat (apply elem_of_cons in Hin as [Hin|Hin]; simplify_eq).
  - simpl. split_and!; [done | done | apply lookup_insert_eq | apply take_drop | by eauto].
  - by apply elem_of_nil in Hin.
Qed.

(** X18. The first packet of an unknown connection, when it does not ask
    for version negotiation and [newSession] succeeds: the session is
    made with the version and connection ID of the header, started, put
    into the map, and handed the packet, in this order. *)
Theorem X18_first_packet_opens_a_session s w remoteAddr packet hdr0 rLen session :
  (length packet <= quic.MaxPacketSize)%nat ->
  quic.parsePublicHeader packet = Ok (hdr0, rLen) ->
  quic.VersionFlag hdr0 && negb (quic.IsSupportedVersion (quic.VersionNumber hdr0)) = false ->
  quic.sessions s !! quic.ConnectionID hdr0 = None ->
  quic.newSession s remoteAddr (quic.VersionNumber hdr0) (quic.ConnectionID hdr0) = Ok session ->
  let '(r, s', w') := quic.handlePacket s w remoteAddr packet in
  r = None /\
  quic.sessions s' = <[quic.ConnectionID hdr0 := Some session]> (quic.sessions s) /\
  quic.trace w' =
    quic.trace w ++
      [quic.EvNewSession (quic.VersionNumber hdr0) (quic.ConnectionID hdr0);
       quic.EvRun session;
       quic.EvHandlePacket session remoteAddr
         (quic.set_Raw (take (length packet - rLen) packet) hdr0)
         (drop (length packet - rLen) packet)].
Proof.
  intros Hsize Hparse Hversion Hnone Hnew.
  rewrite (handlePacket_parsed s w remoteAddr packet hdr0 rLen Hsize Hparse).
  rewrite Hversion, Hnone, Hnew. simpl.
  split_and!; [done | done | by rewrite <- !app_assoc].
Qed.

(** The events of one operation, while [id] has a live session and is
    not closed. *)
Lemma run_op_live id session o s w :
  quic.sessions s !! id = Some (Some session) ->
  o <> quic.Close id ->
  quic.sessions (quic.run_op o (s, w)).1 !! id = Some (Some session) /\
  exists new,
    quic.trace (quic.run_op o (s, w)).2 = quic.trace w ++ new /\
    forall v, quic.EvNewSession v id ∉ new.
Proof.
  intros Hlive Hne. destruct o as [remoteAddr packet|id']; simpl.
  - unfold quic.handlePacket, quic.WriteToUDP.
    repeat case_match; simplify_eq; simpl in *.
    all: try (split; [done|]; exists []; split; [by rewrite app_nil_r|];
              intros v Hin; by apply elem_of_nil in Hin).
    all: try (split; [done|]; eexists [_]; split; [done|]; intros v Hin;
              apply list_elem_of_singleton in Hin; by simplify_eq).
    match goal with
    | H : quic.sessions _ !! ?k = None |- _ =>
      assert (k <> id) as Hother by (intros Heq; rewrite Heq in H; congruence)
    end.
    split; [by rewrite lookup_insert_ne|].
    eexists [_; _; _]. split; [by rewrite <- !app_assoc|].
    intros v Hin.
    repeat (apply elem_of_cons in Hin as [Hin|Hin]; simplify_eq).
    by apply elem_of_nil in Hin.
  - split.
    + unfold quic.closeCallback. simpl. rewrite lookup_insert_ne; [done|].
      congruence.
    + exists []. split; [by rewrite app_nil_r|].
      intros v Hin. by apply elem_of_nil in Hin.
Qed.

(** X19. While a connection has a session and is not closed, whatever
    packets arrive and whatever other sessions close, the map keeps that
    session for it and [newSession] is not called for it again. *)
Theorem X19_open_session_is_kept id session ops s w :
  quic.sessions s !! id = Some (Some session) ->
  quic.Close id ∉ ops ->
  quic.sessions (quic.run_ops ops (s, w)).1 !! id = Some (Some session) /\
  exists new,
    quic.trace (quic.run_ops ops (s, w)).2 = quic.trace w ++ new /\
    forall v, quic.EvNewSession v id ∉ new.
Proof.
  revert s w. induction ops as [|o ops IH]; intros s w Hlive Hops.
  { split; [done|]. exists []. split; [by rewrite app_nil_r|].
    intros v Hin. by apply elem_of_nil in Hin. }
  apply not_elem_of_cons in Hops as [Hne Hops].
  destruct (run_op_live id session o s w Hlive) as (Hlive' & new & Htrace & Hnew);
    [congruence|].
  unfold quic.run_ops in *. simpl.
  destruct (quic.run_op o (s, w)) as [s1 w1]. simpl in *.
  destruct (IH s1 w1 Hlive' Hops) as (Hfinal & new' & Htrace' & Hnew').
  split; [done|]. exists (new ++ new'). split.
  - by rewrite Htrace', Htrace, app_assoc.
  - intros v [Hin|Hin]%elem_of_app; [by eapply Hnew | by eapply Hnew'].
Qed.

(** X20. A packet with the version flag and a version the server does
    not support never touches the sessions, not even a live session of
    its connection ID: the only effect is one Version Negotiation packet
    to the sender, the public header written for that connection ID
    followed by the supported versions, and the error of the socket is
    what [handlePacket] returns. *)
Theorem X20_version_negotiation_touches_no_session s w remoteAddr packet hdr0 rLen :
  (length packet <= quic.MaxPacketSize)%nat ->
  quic.parsePublicHeader packet = Ok (hdr0, rLen) ->
  quic.VersionFlag hdr0 = true ->
  quic.IsSupportedVersion (quic.VersionNumber hdr0) = false ->
  let reply :=
    (quic.WritePublicHeader
       {| quic.Raw := []; quic.VersionFlag := true; quic.VersionNumber := 0%Z;
          quic.ConnectionID := quic.ConnectionID hdr0;
          quic.PacketNumber := 1%N |}).1 ++ quic.SupportedVersionsAsTags in
  quic.handlePacket s w remoteAddr packet =
    (quic.udpError w, s,
     match quic.udpError w with
     | Some _ => w
     | None => quic.add_event (quic.EvWriteToUDP reply remoteAddr) w
     end).
Proof.
  intros Hsize Hparse Hflag Hunsupported.
  rewrite (handlePacket_parsed s w remoteAddr packet hdr0 rLen Hsize Hparse).
  rewrite Hflag, Hunsupported. simpl. unfold quic.composeVersionNegotiation.
  destruct (quic.WritePublicHeader _) as [header err]. simpl.
  by destruct (quic.udpError w).
Qed.

Lemma handlePacket_keeps_entries s w remoteAddr packet id x :
  quic.sessions s !! id = Some x ->
  quic.sessions (quic.handlePacket s w remoteAddr packet).1.2 !! id = Some x.
Proof.
  intros Hentry. unfold quic.handlePacket, quic.WriteToUDP.
  repeat case_match; simplify_eq; simpl in *; try done.
  rewrite lookup_insert_ne; [done|].
  match goal with
  | H : quic.sessions _ !! ?k = None |- _ => intros Heq; rewrite Heq in H
  end.
  congruence.
Qed.

(** X21. The map of sessions only grows: [handlePacket] leaves every
    entry as it is, and through any packets and closings a connection ID
    that has an entry keeps one. *)
Theorem X21_sessions_map_only_grows ops s w id :
  (forall remoteAddr packet x,
     quic.sessions s !! id = Some x ->
     quic.sessions (quic.handlePacket s w remoteAddr packet).1.2 !! id = Some x) /\
  (is_Some (quic.sessions s !! id) ->
   is_Some (quic.sessions (quic.run_ops ops (s, w)).1 !! id)).
Proof.
  split; [intros; by apply handlePacket_keeps_entries|].
  revert s w. induction ops as [|o ops IH]; intros s w Hentry; [done|].
  unfold quic.run_ops in *. simpl. destruct o as [remoteAddr packet|id']; simpl.
  - destruct Hentry as [x Hx].
    pose proof (handlePacket_keeps_entries s w remoteAddr packet id x Hx) as Hkeep.
    destruct (quic.handlePacket s w remoteAddr packet) as [[r s1] w1].
    apply IH. by exists x.
  - apply IH. unfold quic.closeCallback. simpl.
    destruct (decide (id' = id)) as [->|Hne].
    + rewrite lookup_insert_eq. by eexists.
    + by rewrite lookup_insert_ne.
Qed.

(** ** Server.Close *)

Lemma closeConns_spec cs :
  ((quic.closeConns cs).1 <= length cs)%nat /\
  (forall i, (i + 1 < (quic.closeConns cs).1)%nat -> cs !! i = Some None) /\
  match (quic.closeConns cs).2 with
  | Some err => cs !! ((quic.closeConns cs).1 - 1)%nat = Some (Some err) /\
                (0 < (quic.closeConns cs).1)%nat
  | None => (quic.closeConns cs).1 = length cs /\ Forall (fun r => r = None) cs
  end.
Proof.
  induction cs as [|[err|] cs (Hle & Hbefore & Hres)]; simpl.
  - split_and!; [lia | intros; lia | done | done].
  - split_and!; [lia | intros; lia | done | lia].
  - destruct (quic.closeConns cs) as [n res]; simpl in *.
    split_and!; [lia | |].
    + intros [|i] Hi; simpl; [done|]. apply Hbefore. lia.
    + destruct res as [err|].
      * destruct Hres as [Hat Hpos]. split; [|lia].
        destruct n as [|n]; [lia|]. simpl in *. by rewrite Nat.sub_0_r in Hat.
      * destruct Hres as [-> Hall]. split; [done|]. by constructor.
Qed.

(** X22. [Server.Close] closes the sockets in order and stops at the
    first whose [Close] fails, returning its error: the sockets after it
    are not closed.  It returns nil when every socket closed.  A second
    [Server.Close] panics on the closed channel. *)
Theorem X22_Close_stops_at_the_first_failure l :
  quic.packetsToSendClosed l = false ->
  exists n res,
    (quic.Server_Close l).1 = Some (n, res) /\
    (n <= length (quic.conns l))%nat /\
    (forall i, (i + 1 < n)%nat -> quic.conns l !! i = Some None) /\
    match res with
    | Some err => quic.conns l !! (n - 1)%nat = Some (Some err) /\ (0 < n)%nat
    | None => n = length (quic.conns l) /\ Forall (fun r => r = None) (quic.conns l)
    end /\
    (quic.Server_Close (quic.Server_Close l).2).1 = None.
Proof.
  intros Hopen. unfold quic.Server_Close. rewrite Hopen. simpl.
  destruct (closeConns_spec (quic.conns l)) as (Hle & Hbefore & Hres).
  exists (quic.closeConns (quic.conns l)).1, (quic.closeConns (quic.conns l)).2.
  split_and!; [by destruct (quic.closeConns _) | done | done | done | done].
Qed.

End MoreServerProperties.

(** * Concrete runs *)

Import demo.

(** A CHLO with the server config ID and no STK, run through
    [handleMessage]: the token does not verify, and yet both AEADs are
    installed, the signal fires, a SHLO is written and the handshake is
    reported done. *)
Example STK_failure_run :
  let run := handleMessage [x04] demo.chlo_no_stk (demo.fresh 34, demo.world []) in
  crypto.VerifyToken demo.stk demo.peer (at_tag demo.chlo_no_stk TagSTK)
    = Some (ForeignError "STK invalid") /\
  run.1 = Ok true /\
  is_nil (secureAEAD run.2.1) = false /\
  is_nil (forwardSecureAEAD run.2.1) = false /\
  exists shlo, trace run.2.2 = [EvAeadChanged; EvStreamWrite ("S"%byte :: shlo)].
Proof. vm_compute. repeat split. by eexists. Qed.

Lemma C1_witness :
  isInchoateCHLO (demo.fresh 34) demo.chlo_no_stk = false /\
  handleMessage [x04] demo.chlo_no_stk (demo.fresh 34, demo.world []) =
    (reply <- handleCHLO (String.string_of_list_byte demo.sni) [x04] demo.chlo_no_stk ;;
     cryptoStream_Write reply ;;;
     ret true) (demo.fresh 34, demo.world []).
Proof.
  apply (C1_STK_failure_is_handled_as_full_CHLO (demo.fresh 34) (demo.world [])
           [x04] demo.chlo_no_stk demo.sni (ForeignError "STK invalid")).
  - reflexivity.
  - discriminate.
  - reflexivity.
  - reflexivity.
Defined.

(** The claimed order fails on a full CHLO: the trace of the step is the
    signal and then the write. *)
Lemma C2_counterexample :
  let run := handleMessage [x01] demo.chlo_full (demo.fresh 34, demo.world []) in
  run.1 = Ok true /\
  (exists shlo, trace run.2.2 = [EvAeadChanged; EvStreamWrite shlo]) /\
  signal_follows_write false (trace run.2.2) = false.
Proof. vm_compute. repeat split. by eexists. Qed.

Lemma C2_witness :
  exists replyMap,
    trace (handleMessage [x01] demo.chlo_full (demo.fresh 34, demo.world [])).2.2 =
    trace (demo.world []) ++
      [EvAeadChanged; EvStreamWrite (WriteHandshakeMessage TagSHLO replyMap)].
Proof.
  apply (C2_signal_precedes_SHLO_write [x01] demo.chlo_full
           (demo.fresh 34, demo.world [])
           (handleMessage [x01] demo.chlo_full (demo.fresh 34, demo.world [])).2).
  reflexivity.
Defined.

(** After the handshake: a packet under the secure AEAD, one under the
    forward-secure AEAD, and then one under the null AEAD, which is
    refused. *)
Lemma C3_witness :
  (OpenAll demo.established
     [(1%N, [], [x01; x61]); (2%N, [], [x02; x62]); (3%N, [], [x00; x63])]).1 =
    [(Secure, Ok [x61]); (ForwardSecure, Ok [x62]);
     (ForwardSecure, Err (ForeignError "decryption failed"))] /\
  (Secure = ForwardSecure -> ForwardSecure = ForwardSecure) /\
  (Secure = Secure -> ForwardSecure <> Null).
Proof.
  split; [reflexivity|].
  apply (C3_monotonic_key_tier demo.established
           [(1%N, [], [x01; x61]); (2%N, [], [x02; x62]); (3%N, [], [x00; x63])]
           0 1 Secure [x61] ForwardSecure [x62]).
  - lia.
  - reflexivity.
  - reflexivity.
Defined.

Lemma C4_witness :
  Seal demo.established 1%N [] [x61] = Some [x01; x61].
Proof.
  apply (proj1 (proj2 (C4_Seal_selects_AEAD demo.established 1%N [] [x61]))
           eq_refl (demo.keyed x01) eq_refl).
Defined.

Lemma C5_witness :
  DiversificationNonce demo.established = Some (repeat x11 32) /\
  length (diversificationNonce (demo.fresh 34)) = 32.
Proof.
  split.
  - apply (proj1 (C5_DiversificationNonce demo.established)).
    split; [|split].
    + assert (version demo.established = 34%Z) as -> by reflexivity. lia.
    + exists (demo.keyed x01). reflexivity.
    + reflexivity.
  - apply (proj2 (proj2 (C5_DiversificationNonce (demo.fresh 34))) (demo.world [])).
    exists Handshaking, (demo.fresh 34, demo.world []). split.
    + split; [|reflexivity]. by exists 5%N, demo.peer, 34%Z, demo.config, (repeat x11 64).
    + apply rtc_refl.
Defined.

Lemma C6_witness :
  handleInchoateCHLO "a.io" [x01] demo.chlo_full (demo.fresh 34, demo.world []) =
    (Err (QuicError CryptoInvalidValueLength "CHLO too small"),
     (demo.fresh 34, demo.world [])) /\
  is_ok (handleCHLO "a.io" [x01] demo.chlo_full (demo.fresh 34, demo.world [])).1 = true.
Proof.
  assert (length [x01] < protocol.ClientHelloMinimumSize)%nat as Hshort
    by (unfold protocol.ClientHelloMinimumSize; simpl; lia).
  destruct (C6_size_minimum_on_inchoate_path_only "a.io" [x01] demo.chlo_full
              (demo.fresh 34) (demo.world []) Hshort) as (Hinchoate & _ & Hfull).
  split; [exact Hinchoate|].
  eapply Hfull; reflexivity.
Defined.

(** An inchoate CHLO of 1024 bytes, answered with a REJ, and then a
    message with the tag REJ. *)
Lemma C7_witness :
  let s := (demo.fresh 34, demo.world (repeat x02 1024 ++ [x03])) in
  let s1 := (HandleCryptoStream_body s).2 in
  HandleCryptoStream (1 + 1) s =
    (Some (Some (CodeError InvalidCryptoMessageType)),
     (s1.1, set_unread (drop 1 (unread s1.2)) s1.2)).
Proof.
  intros s s1.
  apply (C7_non_CHLO_message_is_refused 1 0 s s1 TagREJ ∅ 1).
  - vm_compute. reflexivity.
  - vm_compute. reflexivity.
  - discriminate.
Defined.

Lemma C8_witness :
  exists chloOrNil,
    trace (handleInchoateCHLO "a.io" (repeat x02 1024) demo.chlo_inchoate
             (demo.fresh 34, demo.world [])).2.2 =
      trace (demo.world []) ++ [EvSign "a.io" chloOrNil] /\
    (forall e, Sign (scfg (demo.fresh 34)) "a.io" chloOrNil = Err e ->
               (handleInchoateCHLO "a.io" (repeat x02 1024) demo.chlo_inchoate
                  (demo.fresh 34, demo.world [])).1 = Err e) /\
    (chloOrNil = Some (repeat x02 1024) <-> (30 < version (demo.fresh 34))%Z) /\
    ((version (demo.fresh 34) <= 30)%Z -> chloOrNil = None).
Proof.
  apply (C8_CHLO_in_server_proof "a.io" (repeat x02 1024) demo.chlo_inchoate
           (demo.fresh 34) (demo.world [])).
  rewrite repeat_length. unfold protocol.ClientHelloMinimumSize. lia.
Defined.

(** A full CHLO is handled, then a packet is opened under the
    forward-secure AEAD. *)
Lemma C9_witness :
  let w := (HandleCryptoStream_body (demo.fresh 34, demo.world [x01])).2.2 in
  let s := ((Open demo.established 1%N [] [x02; x61]).2, w) in
  (receivedForwardSecurePacket s.1 = true -> is_Some (forwardSecureAEAD s.1)) /\
  (forall pn ad pt, is_Some (Seal s.1 pn ad pt)).
Proof.
  intros w s. apply C9_forward_secure_flag_needs_AEAD.
  exists Finished, (demo.fresh 34, demo.world [x01]). split.
  - split; [|reflexivity].
    by exists 5%N, demo.peer, 34%Z, demo.config, (repeat x11 64).
  - eapply rtc_l; [apply step_handshake|].
    eapply rtc_l; [|apply rtc_refl].
    exact (step_Open Finished demo.established w 1%N [] [x02; x61]).
Defined.

(** Connection 7 is closed; a packet for connection 8 opens a session,
    connection 9 closes, and then a packet for connection 7 arrives. *)
Lemma C10_witness :
  let sw := quic.run_ops [quic.Packet [] [x00; x08; x05; xaa]; quic.Close 9]
              (quic.closeCallback 7 demo.server, demo.net None) in
  quic.sessions sw.1 !! 7%N = Some None /\
  quic.handlePacket sw.1 sw.2 [] [x00; x07; x05; xaa] = (None, sw.1, sw.2).
Proof.
  intros sw.
  destruct (C10_late_packet_for_closed_session 7%N demo.server (demo.net None))
    as [Hstay Hdrop].
  split.
  - apply (Hstay [quic.Packet [] [x00; x08; x05; xaa]; quic.Close 9]).
  - eapply (Hdrop [quic.Packet [] [x00; x08; x05; xaa]; quic.Close 9] []
              [x00; x07; x05; xaa]).
    + simpl. lia.
    + reflexivity.
    + reflexivity.
    + reflexivity.
Defined.

(** A packet for the closed connection 7 that carries the version flag
    and a version the server does not speak: the server answers with a
    Version Negotiation packet, and returns the error of the socket when
    the write fails. *)
Lemma C10_counterexample :
  let s := quic.closeCallback 7 demo.server in
  let packet := [x01; x07; x21; x05; xaa] in
  let refused := ForeignError "network unreachable" in
  quic.sessions s !! 7%N = Some None /\
  (exists hdr rLen, quic.parsePublicHeader packet = Ok (hdr, rLen) /\
                    quic.ConnectionID hdr = 7%N) /\
  quic.handlePacket s (demo.net None) [] packet =
    (None, s,
     {| quic.udpError := None;
        quic.trace := [quic.EvWriteToUDP [x09; x07; "Q"; "0"; "3"; "4"]%byte []] |}) /\
  quic.handlePacket s (demo.net None) [] packet <> (None, s, demo.net None) /\
  quic.handlePacket s (demo.net (Some refused)) [] packet =
    (Some refused, s, demo.net (Some refused)).
Proof.
  intros s packet refused. split; [reflexivity|]. split.
  { eexists _, _. split; reflexivity. }
  split; [reflexivity|]. split; [|reflexivity].
  intros Heq.
  assert (quic.trace (quic.handlePacket s (demo.net None) [] packet).2 = [])
    as Htrace by (by rewrite Heq).
  discriminate Htrace.
Qed.

(** ** Runs for the further properties *)

Lemma X1_witness :
  handleMessage [x04] {[TagSCID := [x53]]} (demo.fresh 34, demo.world []) =
    (Err (QuicError CryptoMessageParameterNotFound "SNI required"),
     (demo.fresh 34, demo.world [])).
Proof.
  apply (X1_CHLO_without_SNI_is_refused [x04] {[TagSCID := [x53]]}
           (demo.fresh 34, demo.world [])).
  reflexivity.
Defined.

Lemma X2_witness :
  let run := handleMessage (repeat x02 1024) demo.chlo_inchoate
               (demo.fresh 34, demo.world []) in
  run.2.1 = demo.fresh 34 /\
  exists rej,
    dom rej = ({[TagSCFG; TagCERT; TagPROF; TagSTK]} : gset N) /\
    rej !! TagSTK = Some (x2a :: demo.peer) /\
    last (trace run.2.2) = Some (EvStreamWrite (WriteHandshakeMessage TagREJ rej)).
Proof.
  intros run.
  destruct (X2_inchoate_CHLO_is_answered_with_REJ (repeat x02 1024)
              demo.chlo_inchoate (demo.fresh 34) (demo.world []) run.2)
    as (Hsame & _ & chloOrNil & proof & cert & token & rej & _ & _ & Htoken
        & Hdom & _ & _ & _ & Hstk & Htrace).
  { vm_compute. reflexivity. }
  split; [exact Hsame|]. exists rej. split; [exact Hdom|]. split.
  - rewrite Hstk. vm_compute in Htoken. injection Htoken as <-. reflexivity.
  - rewrite Htrace. simpl. reflexivity.
Defined.

Lemma X3_witness :
  let run := handleMessage [x02] demo.chlo_inchoate (demo.fresh 34, demo.world []) in
  run.1 <> Ok true /\ run.2.1 = demo.fresh 34 /\
  exists new, trace run.2.2 = trace (demo.world []) ++ new /\ signals new = 0.
Proof.
  apply (X3_CHLO_without_matching_SCID_installs_nothing [x02] demo.chlo_inchoate
           (demo.fresh 34) (demo.world [])).
  discriminate.
Defined.

Lemma X4_witness :
  secureAEAD demo.established = Some (demo.keyed x01) /\
  forwardSecureAEAD demo.established = Some (demo.keyed x02).
Proof.
  destruct (X4_full_CHLO_installs_both_AEADs [x01] demo.chlo_full
              (demo.fresh 34) (demo.world [])
              (handleMessage [x01] demo.chlo_full (demo.fresh 34, demo.world [])).2)
    as (sharedSecret & cert & ephermalKex & fsSecret & _ & _ & _ & _
        & Hsecure & Hfs & _).
  { reflexivity. }
  split.
  - apply (f_equal fst) in Hsecure.
    etransitivity; [symmetry; exact Hsecure | reflexivity].
  - apply (f_equal fst) in Hfs.
    etransitivity; [symmetry; exact Hfs | reflexivity].
Defined.

Lemma X5_witness :
  exists shlo,
    last (trace (handleMessage [x01] demo.chlo_full
                   (demo.fresh 34, demo.world [])).2.2) =
      Some (EvStreamWrite (WriteHandshakeMessage TagSHLO shlo)) /\
    shlo !! TagPUBS = Some [x09] /\
    shlo !! TagSNO = Some (repeat x11 32) /\
    shlo !! TagVER = Some ["Q"; "0"; "3"; "4"]%byte.
Proof.
  destruct (X5_SHLO_contents [x01] demo.chlo_full (demo.fresh 34) (demo.world [])
              (handleMessage [x01] demo.chlo_full (demo.fresh 34, demo.world [])).2)
    as (ephermalKex & shlo & Hkex & _ & Hlast & Hpubs & Hsno & Hver & _).
  { reflexivity. }
  exists shlo. split; [exact Hlast|]. split; [|split; [exact Hsno | exact Hver]].
  rewrite Hpubs. vm_compute in Hkex. injection Hkex as <-. reflexivity.
Defined.

Lemma X6_witness :
  let run := handleCHLO "a.io" [x01] demo.chlo_full
               (demo.without_entropy, demo.world []) in
  run.1 = Err (ForeignError "no entropy") /\
  trace run.2.2 = trace (demo.world []) /\
  secureAEAD run.2.1 = Some (demo.keyed x01).
Proof.
  intros run. split; [reflexivity|]. split; [|reflexivity].
  apply (X6_failed_CHLO_sends_no_signal "a.io" [x01] demo.chlo_full
           demo.without_entropy (demo.world []) (ForeignError "no entropy") run.2).
  reflexivity.
Defined.

(** A REJ and then a SHLO: one signal, at the end. *)
Lemma X7_witness :
  let run := HandleCryptoStream 3
               (demo.fresh 34, demo.world (repeat x02 1024 ++ [x01])) in
  run.1 = Some None /\
  exists new before shlo,
    trace run.2.2 = new /\
    new = before ++ [EvAeadChanged; EvStreamWrite shlo] /\ signals before = 0.
Proof.
  intros run.
  assert (run.1 = Some None) as Hnil by (vm_compute; reflexivity).
  split; [exact Hnil|].
  destruct (X7_at_most_one_signal_per_run 3
              (demo.fresh 34, demo.world (repeat x02 1024 ++ [x01])))
    as (new & Htrace & _ & Hend & _).
  destruct (Hend Hnil) as (before & shlo & Hnew & Hbefore).
  exists new, before, shlo. split; [exact Htrace|]. split; [exact Hnew | exact Hbefore].
Defined.

Lemma X8_witness :
  HandleCryptoStream (0 + 1) (demo.fresh 34, demo.world [x05]) =
    (Some (Some (ForeignError "EOF")), (demo.fresh 34, demo.world [x05])).
Proof.
  apply (X8_read_error_is_returned 0 0 (demo.fresh 34, demo.world [x05])
           (demo.fresh 34, demo.world [x05]) (ForeignError "EOF") 0).
  - reflexivity.
  - reflexivity.
Defined.

Lemma X9_witness :
  let w := (HandleCryptoStream_body (demo.fresh 34, demo.world [x01])).2.2 in
  let h := (Open demo.established 1%N [] [x02; x61]).2 in
  same_setup (demo.fresh 34) h /\
  (receivedForwardSecurePacket (demo.fresh 34) = true ->
   receivedForwardSecurePacket h = true) /\
  (receivedSecurePacket (demo.fresh 34) = true -> receivedSecurePacket h = true).
Proof.
  intros w h.
  apply (X9_flags_are_never_reset
           (Handshaking, (demo.fresh 34, demo.world [x01])) (Finished, (h, w))).
  eapply rtc_l; [apply step_handshake|].
  eapply rtc_l; [|apply rtc_refl].
  exact (step_Open Finished demo.established w 1%N [] [x02; x61]).
Defined.

Lemma X10_witness :
  (Open demo.established 1%N [] [x09; x61]).2 = demo.established.
Proof.
  apply (X10_failed_Open_changes_nothing demo.established 1%N [] [x09; x61]
           (ForeignError "decryption failed")).
  reflexivity.
Defined.

Lemma X12_witness :
  OpenAll (demo.fresh 34) [(1%N, [], [x00; x61]); (2%N, [], [x02; x62])] =
    ([(Null, Ok [x61]); (Null, Err (ForeignError "decryption failed"))],
     demo.fresh 34) /\
  Seal (demo.fresh 34) 1%N [] [x61] = Some [x00; x61] /\
  DiversificationNonce (demo.fresh 34) = None.
Proof.
  exact (X12_fresh_CryptoSetup_uses_NullAEAD 5%N demo.peer 34%Z demo.config
           (repeat x11 64) (demo.fresh 34)
           [(1%N, [], [x00; x61]); (2%N, [], [x02; x62])] 1%N [] [x61] eq_refl).
Defined.

Lemma X13_witness :
  is_ok (NewCryptoSetup 5%N demo.peer 34%Z demo.config (repeat x11 64)) = true /\
  nonce (demo.fresh 34) = repeat x11 32.
Proof.
  destruct (X13_NewCryptoSetup_reads_64_bytes 5%N demo.peer 34%Z demo.config
              (repeat x11 64)) as [Hok Hnonce].
  split.
  - apply Hok. rewrite repeat_length. lia.
  - apply (Hnonce (demo.fresh 34)). reflexivity.
Defined.


Lemma X15_witness :
  exists aead,
    secureAEAD demo.established = Some aead /\
    forall pn ad pt, Seal demo.established pn ad pt = Some (crypto.Seal aead pn ad pt).
Proof.
  apply (X15_nonce_goes_with_the_secure_AEAD demo.established (repeat x11 32)).
  reflexivity.
Defined.

Lemma X23_witness :
  let run := handleMessage [x01] demo.chlo_full (demo.fresh 34, demo.broken_world) in
  run = (Err (ForeignError "stream closed"),
         (handleCHLO "a.io" [x01] demo.chlo_full
            (demo.fresh 34, demo.broken_world)).2) /\
  trace (handleCHLO "a.io" [x01] demo.chlo_full
           (demo.fresh 34, demo.broken_world)).2.2 =
    trace demo.broken_world ++ [EvAeadChanged].
Proof.
  apply (X23_stream_failure_comes_after_the_signal [x01] demo.chlo_full
           (demo.fresh 34) demo.broken_world demo.sni
           (ForeignError "stream closed")
           (match (handleCHLO "a.io" [x01] demo.chlo_full
                     (demo.fresh 34, demo.broken_world)).1 with
            | Ok reply => reply
            | Err _ => []
            end)).
  - reflexivity.
  - discriminate.
  - reflexivity.
  - reflexivity.
  - vm_compute. reflexivity.
Defined.

(** A packet too short to hold a header. *)
Lemma X16_witness :
  (quic.handlePacket demo.server (demo.net None) [] [x00]).1.2 = demo.server /\
  exists new,
    quic.trace (quic.handlePacket demo.server (demo.net None) [] [x00]).2 =
      quic.trace (demo.net None) ++ new /\
    forallb (fun ev => negb (quic.reaches_session ev)) new = true.
Proof.
  apply (X16_refused_packet_reaches_no_session demo.server (demo.net None) [] [x00]
           (QuicError InvalidPacketHeader "EOF")).
  reflexivity.
Defined.

(** A packet for the open connection 7. *)
Lemma X17_witness :
  exists new,
    quic.trace (quic.handlePacket demo.server (demo.net None) [x0a]
                  [x00; x07; x05; xaa]).2 = quic.trace (demo.net None) ++ new /\
    forall session addr hdr data,
      quic.EvHandlePacket session addr hdr data ∈ new ->
      @None error = None /\ addr = [x0a] /\
      quic.sessions demo.server !! quic.ConnectionID hdr = Some (Some session) /\
      quic.Raw hdr ++ data = [x00; x07; x05; xaa] /\
      exists hdr0 rLen,
        quic.parsePublicHeader [x00; x07; x05; xaa] = Ok (hdr0, rLen) /\
        hdr = quic.set_Raw (quic.Raw hdr) hdr0.
Proof.
  apply (X17_packet_goes_to_the_session_of_its_connection demo.server
           (demo.net None) [x0a] [x00; x07; x05; xaa] None demo.server).
  reflexivity.
Defined.

(** The first packet of connection 8. *)
Lemma X18_witness :
  let '(r, s', w') :=
    quic.handlePacket demo.server (demo.net None) [x0a] [x00; x08; x05; xaa] in
  r = None /\
  quic.sessions s' = <[8%N := Some 108]> (quic.sessions demo.server) /\
  quic.trace w' =
    quic.trace (demo.net None) ++
      [quic.EvNewSession 0 8; quic.EvRun 108;
       quic.EvHandlePacket 108 [x0a]
         {| quic.Raw := [x00; x08; x05]; quic.VersionFlag := false;
            quic.VersionNumber := 0; quic.ConnectionID := 8;
            quic.PacketNumber := 5 |}
         [xaa]].
Proof.
  refine (X18_first_packet_opens_a_session demo.server (demo.net None) [x0a]
            [x00; x08; x05; xaa]
            {| quic.Raw := []; quic.VersionFlag := false; quic.VersionNumber := 0;
               quic.ConnectionID := 8; quic.PacketNumber := 5 |}
            1 108 _ eq_refl eq_refl eq_refl eq_refl).
  vm_compute. lia.
Defined.

Lemma X19_witness :
  let ops := [quic.Packet [] [x00; x08; x05; xaa]; quic.Close 9;
              quic.Packet [] [x00; x07; x05; xaa]] in
  quic.sessions (quic.run_ops ops (demo.server, demo.net None)).1 !! 7%N =
    Some (Some 1) /\
  exists new,
    quic.trace (quic.run_ops ops (demo.server, demo.net None)).2 =
      quic.trace (demo.net None) ++ new /\
    forall v, quic.EvNewSession v 7 ∉ new.
Proof.
  apply (X19_open_session_is_kept 7%N 1).
  - reflexivity.
  - intros Hin. repeat (apply elem_of_cons in Hin as [Hin|Hin]; [discriminate|]).
    by apply elem_of_nil in Hin.
Defined.

(** A packet of the open connection 7 that carries version 33. *)
Lemma X20_witness :
  quic.handlePacket demo.server (demo.net None) [x0a] [x01; x07; x21; x05; xaa] =
    (None, demo.server,
     quic.add_event
       (quic.EvWriteToUDP [x09; x07; "Q"; "0"; "3"; "4"]%byte [x0a])
       (demo.net None)).
Proof.
  refine (X20_version_negotiation_touches_no_session demo.server (demo.net None)
            [x0a] [x01; x07; x21; x05; xaa]
            {| quic.Raw := []; quic.VersionFlag := true; quic.VersionNumber := 33;
               quic.ConnectionID := 7; quic.PacketNumber := 5 |}
            1 _ eq_refl eq_refl eq_refl).
  vm_compute. lia.
Defined.

Lemma X21_witness :
  is_Some (quic.sessions
             (quic.run_ops [quic.Close 7; quic.Packet [] [x00; x08; x05; xaa]]
                (demo.server, demo.net None)).1 !! 7%N).
Proof.
  apply (X21_sessions_map_only_grows
           [quic.Close 7; quic.Packet [] [x00; x08; x05; xaa]]
           demo.server (demo.net None) 7%N).
  by exists (Some 1).
Defined.

Lemma X22_witness :
  exists n res,
    (quic.Server_Close demo.listeners).1 = Some (n, res) /\
    (n <= length (quic.conns demo.listeners))%nat /\
    (forall i, (i + 1 < n)%nat -> quic.conns demo.listeners !! i = Some None) /\
    match res with
    | Some err => quic.conns demo.listeners !! (n - 1)%nat = Some (Some err) /\ (0 < n)%nat
    | None => n = length (quic.conns demo.listeners) /\
              Forall (fun r => r = None) (quic.conns demo.listeners)
    end /\
    (quic.Server_Close (quic.Server_Close demo.listeners).2).1 = None.
Proof.
  apply (X22_Close_stops_at_the_first_failure demo.listeners). reflexivity.
Defined.

(** The second socket fails: two sockets were closed, the third was not. *)
Example Close_run :
  (quic.Server_Close demo.listeners).1 = Some (2, Some (ForeignError "already closed")).
Proof. reflexivity. Qed.
